(** * OpenSky sensor: bounding box and region tracking

    A shallow embedding of [sensor.py] (the Home Assistant OpenSky sensor):
    the bounding-box computation [_get_bbox], the boundary notification
    [_handle_boundary] and the polling method [update].

    Number models.  Python floats are idealised: the trigonometric
    bounding-box code is embedded over the real numbers [R]; the record
    filter, which only compares numbers, over the rationals [Q] so that it
    runs.  Rounding, infinities and NaN are outside both models. *)

From Stdlib Require Import Reals Lra Psatz QArith Qabs Qreals ZArith String Ascii List.
From stdpp Require Import gmap strings list fin_maps.

(** ** Outcomes of Python code that may raise *)

Inductive exn : Type :=
| AssertionError
| ZeroDivisionError
| KeyError
| AttributeError
| TypeError
| ExternalError.   (* raised by a collaborator: requests, the distance helper *)

Inductive result (A : Type) : Type :=
| Ok (a : A)
| Raise (e : exn).
Arguments Ok {A} a.
Arguments Raise {A} e.

(** ** The bounding box (lines 131-154) *)

Module BBox.
Local Open Scope R_scope.

(** [math.radians] and [math.degrees]. *)
Definition radians (x : R) : R := x * PI / 180.
Definition degrees (x : R) : R := x * 180 / PI.

(** Python's [x % m] on floats: the result takes the sign of [m],
    [x % m = x - m * floor (x / m)]. *)
Definition py_mod (x m : R) : R := x - m * IZR (Int_part (x / m)).

Definition approx_earth_radius : R := 6371.

(** [self._get_bbox()], reading [self._radius] (metres), [self._latitude]
    and [self._longitude] (degrees).  The result is
    [(lat_min, lon_min, lat_max, lon_max)] in degrees. *)
Definition _get_bbox (_latitude _longitude _radius : R) : result (R * R * R * R) :=
  let half_side_in_km := _radius / 1000 in
  if Rlt_dec 0 half_side_in_km then
    let lat := radians _latitude in
    let lon := radians _longitude in
    let parallel_radius := approx_earth_radius * cos lat in
    let lat_min := lat - half_side_in_km / approx_earth_radius in
    let lat_min := Rmax (- PI / 2) lat_min in
    let lat_max := lat + half_side_in_km / approx_earth_radius in
    let lat_max := Rmin (PI / 2) lat_max in
    if Req_dec_T parallel_radius 0 then Raise ZeroDivisionError
    else
      let lon_min := lon - half_side_in_km / parallel_radius in
      let lon_min :=
        if Rlt_dec lon_min (- PI) then PI + py_mod lon_min (- PI) else lon_min in
      let lon_max := lon + half_side_in_km / parallel_radius in
      let lon_max :=
        if Rlt_dec PI lon_max then PI - py_mod lon_max PI else lon_max in
      Ok (degrees lat_min, degrees lon_min, degrees lat_max, degrees lon_max)
  else Raise AssertionError.

(** A point lies in a box.  A box whose [lon_min] exceeds its [lon_max]
    runs across the antimeridian. *)
Definition in_box (b : R * R * R * R) (lat lon : R) : Prop :=
  let '(lat_min, lon_min, lat_max, lon_max) := b in
  lat_min <= lat <= lat_max /\
  (lon_min <= lon_max -> lon_min <= lon <= lon_max) /\
  (lon_max < lon_min -> lon_min <= lon \/ lon <= lon_max).

Definition box_contains (outer inner : R * R * R * R) : Prop :=
  forall lat lon, in_box inner lat lon -> in_box outer lat lon.

End BBox.

(** ** Python values *)

(** Values that [json()] can deliver.  A JSON object is kept as the list of
    its members in document order. *)
#[local] Set Warnings "-register-all".
Inductive pyval : Type :=
| VNone
| VBool (b : bool)
| VNum (q : Q)
| VStr (s : string)
| VList (l : list pyval)
| VDict (kvs : list (string * pyval)).

(** Truth value of an object, as tested by [if x:] and [or]. *)
Definition truthy (v : pyval) : bool :=
  match v with
  | VNone => false
  | VBool b => b
  | VNum q => negb (Qeq_bool q 0)
  | VStr s => negb (String.eqb s "")
  | VList l => negb (Nat.eqb (length l) 0)
  | VDict kvs => negb (Nat.eqb (length kvs) 0)
  end.

Definition is_none (v : pyval) : bool :=
  match v with VNone => true | _ => false end.

(** [iter(v)]: lists yield their items, strings their characters, dicts
    their keys; the other values are not iterable. *)
Definition py_iter (v : pyval) : result (list pyval) :=
  match v with
  | VList l => Ok l
  | VStr s => Ok (map (fun a => VStr (String a EmptyString)) (list_ascii_of_string s))
  | VDict kvs => Ok (map (fun kv => VStr (fst kv)) kvs)
  | VNone | VBool _ | VNum _ => Raise TypeError
  end.

(** [d.get(k)] on a parsed JSON object: the last member named [k] wins. *)
Definition json_get (kvs : list (string * pyval)) (k : string) : pyval :=
  fold_left (fun acc kv => if String.eqb (fst kv) k then snd kv else acc) kvs VNone.

(** [str.strip()] on strings of ASCII characters.  Python strips the
    characters for which [str.isspace] holds: TAB, LF, VT, FF, CR, the
    separators 0x1c-0x1f and the space. *)
Definition is_space (a : ascii) : bool :=
  let n := nat_of_ascii a in
  ((9 <=? n)%nat && (n <=? 13)%nat) || ((28 <=? n)%nat && (n <=? 32)%nat).

Fixpoint lstrip (s : list ascii) : list ascii :=
  match s with
  | a :: s' => if is_space a then lstrip s' else s
  | [] => []
  end.

Definition strip (s : string) : string :=
  string_of_list_ascii
    (rev (lstrip (rev (lstrip (list_ascii_of_string s))))).

(** [v.strip()]: only strings have the method among the values a field can
    hold. *)
Definition py_strip (v : pyval) : result string :=
  match v with
  | VStr s => Ok (strip s)
  | _ => Raise AttributeError
  end.

Definition Qgtb (a b : Q) : bool := negb (Qle_bool a b).

(** [v > x] for a float [x]: numbers compare, [bool] is a subclass of
    [int]; every other operand raises [TypeError]. *)
Definition py_gt (v : pyval) (x : Q) : result bool :=
  match v with
  | VNum a => Ok (Qgtb a x)
  | VBool b => Ok (Qgtb (if b then 1 else 0) x)
  | VNone | VStr _ | VList _ | VDict _ => Raise TypeError
  end.

(** [dict(pairs)]: later pairs overwrite earlier ones. *)
Definition py_dict (pairs : list (string * pyval)) : gmap string pyval :=
  foldl (fun d kv => <[fst kv := snd kv]> d) ∅ pairs.

(** [d.get(k)]: an absent key reads as [None]. *)
Definition py_get (d : gmap string pyval) (k : string) : pyval :=
  default VNone (d !! k).

(** [d[k]]. *)
Definition py_getitem (d : gmap string pyval) (k : string) : result pyval :=
  match d !! k with
  | Some v => Ok v
  | None => Raise KeyError
  end.

(** ** Constants (lines 32-65) *)

Definition ATTR_LATITUDE : string := "latitude".
Definition ATTR_LONGITUDE : string := "longitude".
Definition ATTR_ICAO24 : string := "icao24".
Definition ATTR_CALLSIGN : string := "callsign".
Definition ATTR_ALTITUDE : string := "altitude".
Definition ATTR_ON_GROUND : string := "on_ground".
Definition ATTR_SENSOR : string := "sensor".
Definition ATTR_STATES : string := "states".

Definition DOMAIN : string := "opensky".
Definition EVENT_OPENSKY_ENTRY : string := DOMAIN +:+ "_entry".
Definition EVENT_OPENSKY_EXIT : string := DOMAIN +:+ "_exit".

Definition OPENSKY_API_FIELDS : list string :=
  [ ATTR_ICAO24; ATTR_CALLSIGN; "origin_country"; "time_position";
    "time_velocity"; ATTR_LONGITUDE; ATTR_LATITUDE; ATTR_ALTITUDE;
    ATTR_ON_GROUND; "velocity"; "heading"; "vertical_rate"; "sensors" ].

(** ** The sensor object and its world *)

(** Set objects live in a store and are referred to by address, so that
    rebinding an attribute and mutating an object stay distinct. *)
Definition loc := nat.

Record OpenSkySensor : Type := {
  _latitude : Q;
  _longitude : Q;
  _radius : Q;                          (* metres *)
  _altitude : Q;
  _state : Z;
  _name : string;
  _username : string;
  _password : string;
  _previously_tracked : option loc;     (* [None] or a set object *)
  _lat_min : R;
  _lon_min : R;
  _lat_max : R;
  _lon_max : R
}.

(** The [data] dictionary handed to [hass.bus.fire]; one field per key. *)
Record event_data : Type := {
  attr_callsign : string;
  attr_altitude : pyval;
  attr_sensor : string;
  attr_longitude : pyval;
  attr_latitude : pyval;
  attr_icao24 : pyval
}.

(** What a call can touch: the attributes of [self], the set objects, and
    the events fired on the bus so far (oldest first). *)
Record World : Type := {
  self : OpenSkySensor;
  sets : gmap loc (gset string);
  bus : list (string * event_data)
}.

(** Stateful code that may raise.  The world at the point of the raise is
    kept: what was assigned before an exception stays assigned. *)
Definition M (A : Type) : Type := World -> result A * World.

#[global] Instance M_ret : MRet M := fun A a w => (Ok a, w).
#[global] Instance M_bind : MBind M := fun A B f m w =>
  match m w with
  | (Ok a, w') => f a w'
  | (Raise e, w') => (Raise e, w')
  end.

#[global] Instance result_ret : MRet result := fun A a => Ok a.
#[global] Instance result_bind : MBind result := fun A B f r =>
  match r with
  | Ok a => f a
  | Raise e => Raise e
  end.

Definition lift {A : Type} (r : result A) : M A := fun w => (r, w).

Definition get_self : M OpenSkySensor := fun w => (Ok (self w), w).

(** [set()] *)
Definition new_set : M loc := fun w =>
  let l := fresh (dom (sets w)) in
  (Ok l, {| self := self w; sets := <[l := ∅]> (sets w); bus := bus w |}).

(** [s.add(x)]: the object at [s] is changed in place. *)
Definition set_add (s : loc) (x : string) : M unit := fun w =>
  (Ok tt, {| self := self w;
             sets := <[s := {[x]} ∪ (sets w !!! s)]> (sets w);
             bus := bus w |}).

(** [a - b]: a new set object. *)
Definition set_difference (a b : loc) : M loc := fun w =>
  let l := fresh (dom (sets w)) in
  (Ok l, {| self := self w;
            sets := <[l := (sets w !!! a) ∖ (sets w !!! b)]> (sets w);
            bus := bus w |}).

(** The items of a set in iteration order.  Python fixes no order; the
    model takes the one of [elements]. *)
Definition set_items (s : loc) : M (list string) := fun w =>
  (Ok (elements (sets w !!! s)), w).

(** [len(s)] *)
Definition set_len (s : loc) : M Z := fun w =>
  (Ok (Z.of_nat (size (sets w !!! s))), w).

(** [self._hass.bus.fire(event, data)] *)
Definition fire (event : string) (data : event_data) : M unit := fun w =>
  (Ok tt, {| self := self w; sets := sets w; bus := bus w ++ [(event, data)] |}).

(** [s] with [_state] replaced. *)
Definition with__state (s : OpenSkySensor) (n : Z) : OpenSkySensor :=
  {| _latitude := _latitude s; _longitude := _longitude s;
     _radius := _radius s; _altitude := _altitude s;
     _state := n; _name := _name s;
     _username := _username s; _password := _password s;
     _previously_tracked := _previously_tracked s;
     _lat_min := _lat_min s; _lon_min := _lon_min s;
     _lat_max := _lat_max s; _lon_max := _lon_max s |}.

(** [s] with [_previously_tracked] replaced. *)
Definition with__previously_tracked (s : OpenSkySensor) (t : option loc)
    : OpenSkySensor :=
  {| _latitude := _latitude s; _longitude := _longitude s;
     _radius := _radius s; _altitude := _altitude s;
     _state := _state s; _name := _name s;
     _username := _username s; _password := _password s;
     _previously_tracked := t;
     _lat_min := _lat_min s; _lon_min := _lon_min s;
     _lat_max := _lat_max s; _lon_max := _lon_max s |}.

(** [self._state = n] *)
Definition set__state (n : Z) : M unit := fun w =>
  (Ok tt, {| self := with__state (self w) n; sets := sets w; bus := bus w |}).

(** [self._previously_tracked = t] *)
Definition set__previously_tracked (t : loc) : M unit := fun w =>
  (Ok tt, {| self := with__previously_tracked (self w) (Some t);
             sets := sets w; bus := bus w |}).

(** ** Construction (lines 114-129) *)

(** [DistanceConverter.convert(radius, KILOMETERS, METERS)] *)
Definition km_to_m (radius : Q) : Q := (radius * 1000)%Q.

Definition __init__ (name : string) (latitude longitude radius altitude : Q)
    (username password : string) : result OpenSkySensor :=
  let r := km_to_m radius in
  match BBox._get_bbox (Q2R latitude) (Q2R longitude) (Q2R r) with
  | Ok (lat_min, lon_min, lat_max, lon_max) =>
      Ok {| _latitude := latitude; _longitude := longitude;
            _radius := r; _altitude := altitude;
            _state := 0%Z; _name := name;
            _username := username; _password := password;
            _previously_tracked := None;
            _lat_min := lat_min; _lon_min := lon_min;
            _lat_max := lat_max; _lon_max := lon_max |}
  | Raise e => Raise e
  end.

Definition native_value (s : OpenSkySensor) : Z := _state s.

(** ** The HTTP exchange of [update] (lines 196-211) *)

(** What [self._session] delivers.  A [requests.Response] is true when its
    status is below 400 ([ok]), iterates over its body in chunks of bytes,
    and [json()] either parses the body or raises. *)
Inductive http_reply : Type :=
| RequestFails
| Response (ok : bool) (chunks : list (list Z)) (json : option pyval).

(** The object the name [states] is bound to after the [try]: the value of
    [states.json().get(ATTR_STATES)], or still the response when that
    raised (no JSON body, or JSON that is not an object). *)
Inductive states_obj : Type :=
| SResponse (ok : bool) (chunks : list (list Z))
| SValue (v : pyval).

(** One item of the iteration over [states]. *)
Inductive row : Type :=
| RVal (v : pyval)
| RBytes (bs : list Z).

Definition fetch_states (r : http_reply) : result states_obj :=
  match r with
  | RequestFails => Raise ExternalError
  | Response ok chunks (Some (VDict kvs)) => Ok (SValue (json_get kvs ATTR_STATES))
  | Response ok chunks _ => Ok (SResponse ok chunks)
  end.

(** [if states:] *)
Definition states_truthy (states : states_obj) : bool :=
  match states with
  | SResponse ok _ => ok
  | SValue v => truthy v
  end.

(** [for state in states] *)
Definition iter_states (states : states_obj) : result (list row) :=
  match states with
  | SResponse _ chunks => Ok (map RBytes chunks)
  | SValue v => l ← py_iter v; Ok (map RVal l)
  end.

(** The items [zip] draws from [state]; bytes yield integers. *)
Definition iter_row (state : row) : result (list pyval) :=
  match state with
  | RVal v => py_iter v
  | RBytes bs => Ok (map (fun b => VNum (inject_Z b)) bs)
  end.

(** A [for] loop whose body updates a local value. *)
Fixpoint for_in {A B : Type} (l : list A) (body : B -> A -> M B) (acc : B) : M B :=
  match l with
  | [] => mret acc
  | x :: l' => acc' ← body acc x; for_in l' body acc'
  end.

(** ** The tracker (lines 166-246) *)

Section Tracker.

(** [homeassistant.util.location.distance]: metres between two points, or
    [None]; it is handed the record's fields as they came. *)
Variable distance : Q -> Q -> pyval -> pyval -> result (option Q).

(** Lines 220-238: [Ok false] where the source says [continue], [Ok true]
    where it reaches [currently_tracked.add]. *)
Definition passes_filters (s : OpenSkySensor) (flight : gmap string pyval)
    : result bool :=
  let longitude := py_get flight ATTR_LONGITUDE in
  if is_none longitude then Ok false else
  let latitude := py_get flight ATTR_LATITUDE in
  if is_none latitude then Ok false else
  if truthy (py_get flight ATTR_ON_GROUND) then Ok false else
  d ← distance (_latitude s) (_longitude s) latitude longitude;
  match d with
  | None => Ok false
  | Some d =>
      if Qgtb d (_radius s) then Ok false else
      let altitude := py_get flight ATTR_ALTITUDE in
      if is_none altitude then Ok false else
      above ← py_gt altitude (_altitude s);
      if above && negb (Qeq_bool (_altitude s) 0) then Ok false else
      Ok true
  end.

(** Lines 214-215: the record as a dictionary, and its stripped callsign. *)
Definition read_state (state : row) : result (string * gmap string pyval) :=
  items ← iter_row state;
  let flight := py_dict (zip OPENSKY_API_FIELDS items) in
  v ← py_getitem flight ATTR_CALLSIGN;
  callsign ← py_strip v;
  Ok (callsign, flight).

(** Lines 213-239, the body of the loop over [states]. *)
Definition process_state (currently_tracked : loc)
    (flight_metadata : gmap string (gmap string pyval)) (state : row)
    : M (gmap string (gmap string pyval)) :=
  '(callsign, flight) ← lift (read_state state);
  if negb (String.eqb callsign "") then
    let flight_metadata := <[callsign := flight]> flight_metadata in
    s ← get_self;
    track ← lift (passes_filters s flight);
    if track : bool then set_add currently_tracked callsign;; mret flight_metadata
    else mret flight_metadata
  else mret flight_metadata.

(** Lines 169-188: the [data] of the event for [flight]. *)
Definition boundary_data (name : string)
    (metadata : gmap string (gmap string pyval)) (flight : string) : event_data :=
  let '(altitude, longitude, latitude, icao24) :=
    match metadata !! flight with
    | Some m =>
        (py_get m ATTR_ALTITUDE, py_get m ATTR_LONGITUDE,
         py_get m ATTR_LATITUDE, py_get m ATTR_ICAO24)
    | None =>
        (* Assume Flight has landed if missing. *)
        (VNum 0, VNone, VNone, VNone)
    end in
  {| attr_callsign := flight; attr_altitude := altitude;
     attr_sensor := name; attr_longitude := longitude;
     attr_latitude := latitude; attr_icao24 := icao24 |}.

(** Lines 166-189. *)
Definition _handle_boundary (flights : loc) (event : string)
    (metadata : gmap string (gmap string pyval)) : M unit :=
  l ← set_items flights;
  for_in l (fun (_ : unit) (flight : string) =>
    s ← get_self;
    fire event (boundary_data (_name s) metadata flight)) tt.

(** Lines 240-246: the boundary events, then the two assignments. *)
Definition detect_and_commit (currently_tracked : loc)
    (flight_metadata : gmap string (gmap string pyval)) : M unit :=
  s ← get_self;
  match _previously_tracked s with
  | Some previously_tracked =>
      entries ← set_difference currently_tracked previously_tracked;
      exits ← set_difference previously_tracked currently_tracked;
      _handle_boundary entries EVENT_OPENSKY_ENTRY flight_metadata;;
      _handle_boundary exits EVENT_OPENSKY_EXIT flight_metadata
  | None => mret tt
  end;;
  n ← set_len currently_tracked;
  set__state n;;
  set__previously_tracked currently_tracked.

(** Lines 191-246.  Python's [update] returns [None]; the model returns the
    local [flight_metadata] so that statements can speak about it. *)
Definition update (reply : http_reply) : M (gmap string (gmap string pyval)) :=
  currently_tracked ← new_set;
  let flight_metadata := ∅ in
  states ← lift (fetch_states reply);
  flight_metadata ←
    (if states_truthy states then
       rows ← lift (iter_states states);
       for_in rows (process_state currently_tracked) flight_metadata
     else mret flight_metadata);
  detect_and_commit currently_tracked flight_metadata;;
  mret flight_metadata.

(** *** The loop over [states] as a function of values

    [polled_rows] is what [for state in states] ranges over (nothing when
    [states] is false), [scan] the loop with the set passed as a value. *)

Definition polled_rows (reply : http_reply) : result (list row) :=
  states ← fetch_states reply;
  if states_truthy states then iter_states states else Ok [].

Fixpoint scan (s : OpenSkySensor) (rows : list row)
    (tracked : gset string) (metadata : gmap string (gmap string pyval))
    : result (gset string * gmap string (gmap string pyval)) :=
  match rows with
  | [] => Ok (tracked, metadata)
  | state :: rows' =>
      '(callsign, flight) ← read_state state;
      if negb (String.eqb callsign "") then
        track ← passes_filters s flight;
        scan s rows' (if track : bool then {[callsign]} ∪ tracked else tracked)
             (<[callsign := flight]> metadata)
      else scan s rows' tracked metadata
  end.

(** The callsign a record adds to the tracked set, if it adds one. *)
Definition qualifies (s : OpenSkySensor) (state : row) : option string :=
  match read_state state with
  | Ok (callsign, flight) =>
      if negb (String.eqb callsign "") then
        match passes_filters s flight with
        | Ok true => Some callsign
        | _ => None
        end
      else None
  | Raise _ => None
  end.

(** The callsign under which a record is stored in the metadata. *)
Definition stored_as (state : row) : option string :=
  match read_state state with
  | Ok (callsign, _) => if negb (String.eqb callsign "") then Some callsign else None
  | Raise _ => None
  end.

(** The events one call of [_handle_boundary] fires, in order. *)
Definition boundary_events (name event : string)
    (metadata : gmap string (gmap string pyval)) (flights : gset string)
    : list (string * event_data) :=
  map (fun flight => (event, boundary_data name metadata flight)) (elements flights).

(** A record the loop gets past: it can be read and, when its callsign is
    not blank, filtered. *)
Definition row_accepted (s : OpenSkySensor) (state : row) : Prop :=
  exists c f, read_state state = Ok (c, f) /\
    (c ≠ "" -> exists b, passes_filters s f = Ok b).

(** The filters ahead of the altitude test let the record through. *)
Definition reaches_altitude_test (s : OpenSkySensor) (flight : gmap string pyval)
    : Prop :=
  is_none (py_get flight ATTR_LONGITUDE) = false /\
  is_none (py_get flight ATTR_LATITUDE) = false /\
  truthy (py_get flight ATTR_ON_GROUND) = false /\
  exists d, distance (_latitude s) (_longitude s)
              (py_get flight ATTR_LATITUDE) (py_get flight ATTR_LONGITUDE)
            = Ok (Some d) /\ Qgtb d (_radius s) = false.

(** The tracked set is the set of stored callsigns whose stored record
    passes the filters. *)
Definition tracked_matches_metadata (s : OpenSkySensor) (cur : gset string)
    (md : gmap string (gmap string pyval)) : Prop :=
  forall c, c ∈ cur <->
    exists flight, md !! c = Some flight /\ passes_filters s flight = Ok true.

End Tracker.

(** The object [_previously_tracked] refers to exists. *)
Definition well_formed (w : World) : Prop :=
  forall p, _previously_tracked (self w) = Some p -> p ∈ dom (sets w).

(** The set [_previously_tracked] refers to, if any. *)
Definition previous_set (w : World) : option (gset string) :=
  match _previously_tracked (self w) with
  | Some p => Some (sets w !!! p)
  | None => None
  end.

(** The events of one call: entries, then exits, when a previous set
    exists. *)
Definition new_events (w : World) (cur : gset string)
    (md : gmap string (gmap string pyval)) : list (string * event_data) :=
  match previous_set w with
  | Some prev =>
      boundary_events (_name (self w)) EVENT_OPENSKY_ENTRY md (cur ∖ prev) ++
      boundary_events (_name (self w)) EVENT_OPENSKY_EXIT md (prev ∖ cur)
  | None => []
  end.

Definition callsign_of (e : string * event_data) : string := attr_callsign (snd e).

(** A record whose fields have the types the loop can handle: an array
    with a string callsign, numbers or nothing for the coordinates, a
    number, a boolean or nothing for the altitude. *)
Definition absent_or_number (v : option pyval) : bool :=
  match v with
  | None | Some VNone | Some (VNum _) => true
  | _ => false
  end.

Definition well_typed (state : row) : bool :=
  match state with
  | RVal (VList items) =>
      match items !! 1%nat with
      | Some (VStr _) =>
          absent_or_number (items !! 5%nat) && absent_or_number (items !! 6%nat) &&
          match items !! 7%nat with
          | Some (VBool _) => true
          | v => absent_or_number v
          end
      | _ => false
      end
  | _ => false
  end.

(** The tracked set, the count and the bus are as before the call. *)
Definition unchanged_by (w w' : World) : Prop :=
  previous_set w' = previous_set w /\
  _state (self w') = _state (self w) /\
  bus w' = bus w.

(** ** Sample data *)

(** A stand-in for the great-circle distance: city-block distance at 111 km
    per degree.  Like the library function it cannot work on coordinates
    that are not numbers. *)
Definition flat_distance (lat1 lon1 : Q) (lat2 lon2 : pyval) : result (option Q) :=
  match lat2, lon2 with
  | VNum a, VNum b => Ok (Some ((Qabs (a - lat1) + Qabs (b - lon1)) * 111000)%Q)
  | _, _ => Raise TypeError
  end.

(** A sensor at (0, 0) with a radius of 50 km.  The four box fields only
    feed the request URL; a box around the centre stands for them. *)
Definition sample_sensor (altitude : Q) : OpenSkySensor :=
  {| _latitude := 0; _longitude := 0; _radius := 50000; _altitude := altitude;
     _state := 0%Z; _name := "opensky"; _username := "user"; _password := "secret";
     _previously_tracked := None;
     _lat_min := (-1)%R; _lon_min := (-1)%R; _lat_max := 1%R; _lon_max := 1%R |}.

Definition sample_world (altitude : Q) : World :=
  {| self := sample_sensor altitude; sets := ∅; bus := [] |}.

(** A full state vector some 22 km from the centre. *)
Definition state_fields (callsign : string) (altitude : pyval) (on_ground : bool)
    : list pyval :=
  [ VStr "4b1806"; VStr callsign; VStr "Switzerland"; VNum 1700000000;
    VNum 1700000000; VNum (1 # 10); VNum (1 # 10); altitude;
    VBool on_ground; VNum 200; VNum 90; VNum 0; VNone ].

Definition state_vector (callsign : string) (altitude : pyval) (on_ground : bool)
    : pyval :=
  VList (state_fields callsign altitude on_ground).

(** A reply whose body parsed to an object with the given [states]; the
    raw chunks are read only when parsing fails and are left out. *)
Definition states_reply (l : list pyval) : http_reply :=
  Response true [] (Some (VDict [("time", VNum 1700000000); (ATTR_STATES, VList l)])).

(** The same without a [states] member. *)
Definition reply_without_states : http_reply :=
  Response true [] (Some (VDict [("time", VNum 1700000000)])).

(** The world after a first poll that saw AAA and BBB. *)
Definition tracking_AB : World :=
  snd (update flat_distance
         (states_reply [ state_vector "AAA" (VNum 500) false;
                         state_vector "BBB" (VNum 900) false ])
         (sample_world 1000)).

(** What a run left behind, for runs that complete. *)
Definition metadata_of (x : result (gmap string (gmap string pyval)) * World)
    : gmap string (gmap string pyval) :=
  match fst x with Ok md => md | Raise _ => ∅ end.

Definition completes (x : result (gmap string (gmap string pyval)) * World) : bool :=
  match fst x with Ok _ => true | Raise _ => false end.

(** Replies used in the examples. *)
Definition first_poll : http_reply :=
  states_reply [ state_vector "AAA" (VNum 500) false;
                 state_vector "BBB" (VNum 900) false ].

Definition second_poll : http_reply :=
  states_reply [ state_vector "BBB" (VNum 500) false;
                 state_vector "CCC" (VNum 1000) false ].

Definition repeated_callsign_poll : http_reply :=
  states_reply [ state_vector "AAA" (VNum 500) false;
                 state_vector "AAA" (VNum 0) true ].

Definition truncated_poll : http_reply :=
  states_reply [ state_vector "CCC" (VNum 500) false; VList [VStr "4b1806"] ].

Definition bad_altitude_poll : http_reply :=
  states_reply [ state_vector "CCC" (VStr "n/a") false ].

Definition two_fields : list pyval := [VStr "4b1807"; VStr "DDD "].

Definition short_records_poll : http_reply :=
  states_reply [ VList two_fields; state_vector "CCC" (VNum 500) false ].

Definition ceiling_poll : http_reply :=
  states_reply [ state_vector "LOW" (VNum 500) false;
                 state_vector "EDGE" (VNum 1000) false;
                 state_vector "HIGH" (VNum 1500) false ].

(** ** The rest of the entity (lines 81-104, 156-164, 248-256) *)

Module Entity.

Definition _attr_attribution : string :=
  "Information provided by the OpenSky Network (https://opensky-network.org)".

Definition name (s : OpenSkySensor) : string := _name s.

Definition native_unit_of_measurement (s : OpenSkySensor) : string := "flights".

Definition icon (s : OpenSkySensor) : string := "mdi:airplane".

End Entity.

(** [hass.config], as far as [setup_platform] reads it. *)
Record HassConfig : Type := {
  hass_latitude : Q;
  hass_longitude : Q
}.

(** A configuration that went through [PLATFORM_SCHEMA]: the required keys
    are there and coerced, [CONF_ALTITUDE] has its default, the optional
    keys without default may be missing. *)
Record ConfigType : Type := {
  CONF_RADIUS : Q;                    (* kilometres *)
  CONF_NAME : option string;
  CONF_USERNAME : string;
  CONF_PASSWORD : string;
  CONF_LATITUDE : option Q;
  CONF_LONGITUDE : option Q;
  CONF_ALTITUDE : Q
}.

(** [setup_platform]; the result is what it hands to [add_entities]: the
    list of entities and the update-before-add flag. *)
Definition setup_platform (hass : HassConfig) (config : ConfigType)
    : result (list OpenSkySensor * bool) :=
  let latitude := default (hass_latitude hass) (CONF_LATITUDE config) in
  let longitude := default (hass_longitude hass) (CONF_LONGITUDE config) in
  s ← __init__ (default DOMAIN (CONF_NAME config)) latitude longitude
        (CONF_RADIUS config) (CONF_ALTITUDE config)
        (CONF_USERNAME config) (CONF_PASSWORD config);
  Ok ([s], true).

(** The world of a sensor that was just constructed. *)
Definition initial_world (s : OpenSkySensor) : World :=
  {| self := s; sets := ∅; bus := [] |}.

(** The host calls [update] once per scan interval; an exception is logged
    by the host and the object stays as the failed call left it. *)
Fixpoint polls (distance : Q -> Q -> pyval -> pyval -> result (option Q))
    (replies : list http_reply) (w : World) : World :=
  match replies with
  | [] => w
  | reply :: replies' => polls distance replies' (snd (update distance reply w))
  end.

(** The count is the size of the tracked set, once there is one. *)
Definition count_matches (w : World) : Prop :=
  forall p, _previously_tracked (self w) = Some p ->
            _state (self w) = Z.of_nat (size (sets w !!! p)).

(** The attributes [update] never assigns. *)
Definition same_configuration (s s' : OpenSkySensor) : Prop :=
  _latitude s' = _latitude s /\ _longitude s' = _longitude s /\
  _radius s' = _radius s /\ _altitude s' = _altitude s /\
  _name s' = _name s /\ _username s' = _username s /\
  _password s' = _password s /\
  _lat_min s' = _lat_min s /\ _lon_min s' = _lon_min s /\
  _lat_max s' = _lat_max s /\ _lon_max s' = _lon_max s.

(** A record whose callsign strips to the empty string. *)
Definition is_blank (state : row) : bool :=
  match read_state state with
  | Ok (callsign, _) => String.eqb callsign ""
  | Raise _ => false
  end.

(** The exception a run ended with, if any. *)
Definition raised (x : result (gmap string (gmap string pyval)) * World)
    : option exn :=
  match fst x with Ok _ => None | Raise e => Some e end.

(** Further sample data. *)
Definition blank_callsign_poll : http_reply :=
  states_reply [ state_vector "   " (VNum 500) false;
                 state_vector "BBB" (VNum 500) false;
                 state_vector "" (VNum 500) false;
                 state_vector "CCC" (VNum 1000) false ].

Definition long_record : list pyval :=
  state_fields "CCC" (VNum 500) false ++ [VNum 7; VStr "extra"].

Definition sample_config : ConfigType :=
  {| CONF_RADIUS := 50; CONF_NAME := None;
     CONF_USERNAME := "user"; CONF_PASSWORD := "secret";
     CONF_LATITUDE := None; CONF_LONGITUDE := Some (1799 # 10);
     CONF_ALTITUDE := 0 |}.

Definition sample_hass : HassConfig :=
  {| hass_latitude := 47; hass_longitude := 8 |}.

(** The angular half-height and half-width of the box, in radians. *)
Definition half_height (r : R) : R := (r / 1000 / BBox.approx_earth_radius)%R.

Definition half_width (lat r : R) : R :=
  (r / 1000 / (BBox.approx_earth_radius * cos (BBox.radians lat)))%R.

(** A record cut after [on_ground]: 9 of the 13 fields. *)
Definition nine_fields : list pyval := take 9 (state_fields "EEE" (VNum 500) false).

Definition nine_fields_poll : http_reply := states_reply [ VList nine_fields ].

(** * Facts *)

#[local] Set Warnings "-clear-no-such-hyp".

(** ** The monadic loop and its value-passing form *)

Section TrackerFacts.
Variable distance : Q -> Q -> pyval -> pyval -> result (option Q).

Lemma M_bind_eq {A B : Type} (m : M A) (f : A -> M B) (w : World) :
  (m ≫= f) w =
  match m w with
  | (Ok a, w') => f a w'
  | (Raise e, w') => (Raise e, w')
  end.
Proof. reflexivity. Qed.

Lemma world_eta (w : World) :
  {| self := self w; sets := sets w; bus := bus w |} = w.
Proof. by destruct w. Qed.

(** One turn of the loop, by cases on the record. *)
Lemma process_state_eq l md state w :
  process_state distance l md state w =
  match read_state state with
  | Raise e => (Raise e, w)
  | Ok (c, f) =>
      if negb (String.eqb c "") then
        match passes_filters distance (self w) f with
        | Raise e => (Raise e, w)
        | Ok true =>
            (Ok (<[c := f]> md),
             {| self := self w;
                sets := <[l := {[c]} ∪ (sets w !!! l)]> (sets w);
                bus := bus w |})
        | Ok false => (Ok (<[c := f]> md), w)
        end
      else (Ok md, w)
  end.
Proof.
  unfold process_state. rewrite M_bind_eq. unfold lift at 1.
  destruct (read_state state) as [[c f]|e]; [|done].
  destruct (negb (String.eqb c "")); [|done].
  rewrite M_bind_eq. unfold get_self at 1. rewrite M_bind_eq. unfold lift at 1.
  destruct (passes_filters distance (self w) f) as [[|]|e]; done.
Qed.

(** The loop over [states] changes nothing but the set object it adds to,
    and that one as [scan] computes; when it raises, [self] and the bus are
    as they were. *)
Lemma for_in_scan l rows : forall md w S0,
  sets w !! l = Some S0 ->
  match scan distance (self w) rows S0 md with
  | Ok (S1, md') =>
      for_in rows (process_state distance l) md w =
      (Ok md', {| self := self w; sets := <[l := S1]> (sets w); bus := bus w |})
  | Raise e =>
      exists w', for_in rows (process_state distance l) md w = (Raise e, w')
                 /\ self w' = self w /\ bus w' = bus w
  end.
Proof.
  induction rows as [|state rows IH]; intros md w S0 Hl; simpl.
  - rewrite insert_id by done. by rewrite world_eta.
  - rewrite M_bind_eq, process_state_eq.
    unfold mbind at 1, result_bind.
    destruct (read_state state) as [[c f]|e]; [|by eauto].
    destruct (negb (String.eqb c "")); [|by apply IH].
    unfold mbind at 1. 
    destruct (passes_filters distance (self w) f) as [[|]|e]; [| by apply IH | by eauto].
    rewrite (lookup_total_correct _ _ _ Hl).
    specialize (IH (<[c:=f]> md)
      {| self := self w; sets := <[l:={[c]} ∪ S0]> (sets w); bus := bus w |}
      ({[c]} ∪ S0)).
    simpl in IH. rewrite lookup_insert_eq in IH. specialize (IH eq_refl).
    destruct (scan distance (self w) rows ({[c]} ∪ S0) (<[c:=f]> md)) as [[S1 md']|e].
    + rewrite IH. by rewrite insert_insert_eq.
    + exact IH.
Qed.

(** The loop of [_handle_boundary] fires one event per item, in order. *)
Lemma for_in_fire name event md (l : list string) : forall w,
  _name (self w) = name ->
  for_in l (fun (_ : unit) (flight : string) =>
      s ← get_self; fire event (boundary_data (_name s) md flight)) tt w =
  (Ok tt, {| self := self w; sets := sets w;
             bus := bus w ++ map (fun flight => (event, boundary_data name md flight)) l |}).
Proof.
  induction l as [|c l IH]; intros w Hn; simpl.
  - rewrite app_nil_r. by rewrite world_eta.
  - rewrite M_bind_eq, M_bind_eq. unfold get_self at 1, fire at 1.
    rewrite IH by done. simpl. rewrite Hn. by rewrite <- app_assoc.
Qed.

Lemma handle_boundary_eq flights event md w :
  _handle_boundary flights event md w =
  (Ok tt, {| self := self w; sets := sets w;
             bus := bus w ++ boundary_events (_name (self w)) event md (sets w !!! flights) |}).
Proof.
  unfold _handle_boundary. rewrite M_bind_eq. unfold set_items at 1.
  by rewrite (for_in_fire (_name (self w))).
Qed.

(** [update] in three steps: allocate, loop, detect and commit. *)
Lemma update_eq reply w :
  update distance reply w =
  let l := fresh (dom (sets w)) in
  let w1 := {| self := self w; sets := <[l := ∅]> (sets w); bus := bus w |} in
  match polled_rows reply with
  | Raise e => (Raise e, w1)
  | Ok rows =>
      match for_in rows (process_state distance l) ∅ w1 with
      | (Ok md, w2) =>
          match detect_and_commit l md w2 with
          | (Ok _, w3) => (Ok md, w3)
          | (Raise e, w3) => (Raise e, w3)
          end
      | (Raise e, w2) => (Raise e, w2)
      end
  end.
Proof.
  unfold update, polled_rows.
  rewrite M_bind_eq. unfold new_set at 1. cbv zeta.
  rewrite M_bind_eq. unfold lift at 1.
  destruct (fetch_states reply) as [states|e]; [|done].
  change (Ok states ≫= _) with (if states_truthy states then iter_states states else Ok []).
  rewrite M_bind_eq.
  destruct (states_truthy states).
  - rewrite M_bind_eq. unfold lift at 1.
    destruct (iter_states states) as [rows|e]; [|done].
    destruct (for_in rows _ ∅ _) as [[md|e] w2]; [|done].
    rewrite M_bind_eq. by destruct (detect_and_commit _ md w2) as [[[]|e] w3].
  - simpl. unfold mret at 1, M_ret.
    rewrite M_bind_eq. by destruct (detect_and_commit _ ∅ _) as [[[]|e] w3].
Qed.

(** Lines 240-246 never raise; they allocate the two differences, fire the
    events and assign [_state] and [_previously_tracked]. *)
Lemma detect_and_commit_eq l md w cur :
  well_formed w ->
  sets w !! l = Some cur ->
  _previously_tracked (self w) ≠ Some l ->
  exists w',
    detect_and_commit l md w = (Ok tt, w') /\
    self w' = with__previously_tracked (with__state (self w) (Z.of_nat (size cur))) (Some l) /\
    sets w' !! l = Some cur /\
    (forall l', l' ∈ dom (sets w) -> sets w' !! l' = sets w !! l') /\
    bus w' = bus w ++ new_events w cur md.
Proof.
  intros Hwf Hl Hne. unfold detect_and_commit, new_events, previous_set.
  rewrite M_bind_eq. unfold get_self at 1.
  destruct (_previously_tracked (self w)) as [p|] eqn:Hp.
  - assert (Hpd : p ∈ dom (sets w)) by (by apply Hwf).
    assert (Hpl : p ≠ l) by congruence.
    rewrite !M_bind_eq. unfold set_difference at 1. cbv zeta.
    set (le := fresh (dom (sets w))).
    assert (Hle : le ∉ dom (sets w)) by apply is_fresh.
    rewrite M_bind_eq. unfold set_difference at 1. cbv zeta. cbn [sets self bus].
    set (S2 := <[le := _]> (sets w)).
    set (lx := fresh (dom S2)).
    assert (Hlx : lx ∉ dom S2) by apply is_fresh.
    rewrite M_bind_eq, handle_boundary_eq. cbn [sets self bus].
    rewrite handle_boundary_eq. cbn [sets self bus].
    unfold set_len at 1. rewrite M_bind_eq. unfold set__state at 1.
    unfold set__previously_tracked. cbn [sets self bus].
    assert (Hld : l ∈ dom (sets w)) by (apply elem_of_dom; eauto).
    assert (le ≠ l) by congruence. assert (le ≠ p) by congruence.
    assert (Hlx' : (lx ∉ dom (sets w)) /\ (lx ≠ le)).
    { subst S2. rewrite dom_insert in Hlx. set_solver. }
    destruct Hlx' as [Hlx1 Hlx2].
    assert (lx ≠ l) by congruence. assert (lx ≠ p) by congruence.
    eexists. split; [reflexivity|]. cbn [sets self bus].
    subst S2.
    rewrite !lookup_total_insert_eq.
    rewrite !(lookup_total_insert_ne _ lx) by done.
    rewrite !lookup_total_insert_eq.
    rewrite !(lookup_total_insert_ne _ le) by done.
    rewrite (lookup_total_correct _ _ _ Hl).
    split; [done|]. split.
    { by rewrite !lookup_insert_ne. }
    split.
    { intros l' Hl'. rewrite !lookup_insert_ne; [done| |]; congruence. }
    by rewrite <- app_assoc.
  - rewrite !M_bind_eq. unfold mret at 1, M_ret. unfold set_len at 1.
    rewrite M_bind_eq. unfold set__state at 1, set__previously_tracked.
    cbn [sets self bus].
    eexists. split; [reflexivity|]. cbn [sets self bus].
    rewrite (lookup_total_correct _ _ _ Hl), app_nil_r. done.
Qed.

(** *** The loop as a function: what it tracks and what it stores *)

(** A record that adds its callsign also stores it. *)
Lemma qualifies_stored_as s state c :
  qualifies distance s state = Some c -> stored_as state = Some c.
Proof.
  unfold qualifies, stored_as.
  destruct (read_state state) as [[c' f]|e]; [|done].
  destruct (negb (String.eqb c' "")); [|done].
  by destruct (passes_filters distance s f) as [[|]|].
Qed.

(** The tracked set: the callsigns of the records that pass. *)
Lemma scan_tracked s rows : forall S0 md S1 md',
  scan distance s rows S0 md = Ok (S1, md') ->
  S1 = list_to_set (omap (qualifies distance s) rows) ∪ S0.
Proof.
  induction rows as [|state rows IH]; intros S0 md S1 md' H; simpl in *.
  - inversion H; subst. set_solver.
  - unfold qualifies at 1.
    destruct (read_state state) as [[c f]|e]; [|done]. simpl in H.
    destruct (negb (String.eqb c "")); [|by eapply IH].
    destruct (passes_filters distance s f) as [[|]|e]; [| |done]; simpl in H.
    + apply IH in H. subst. set_solver.
    + by eapply IH.
Qed.

(** The metadata keys: the non-blank callsigns of the batch. *)
Lemma scan_dom s rows : forall S0 md S1 md',
  scan distance s rows S0 md = Ok (S1, md') ->
  dom md' = list_to_set (omap stored_as rows) ∪ dom md.
Proof.
  induction rows as [|state rows IH]; intros S0 md S1 md' H; simpl in *.
  - inversion H; subst. set_solver.
  - unfold stored_as at 1.
    destruct (read_state state) as [[c f]|e]; [|done]. simpl in H.
    destruct (negb (String.eqb c "")); [|by eapply IH].
    destruct (passes_filters distance s f) as [b|e]; [|done]; simpl in H.
    apply IH in H. rewrite H, dom_insert_L. set_solver.
Qed.

(** Records with other callsigns leave the entry of [c] alone. *)
Lemma scan_keeps s rows c : forall S0 md S1 md',
  Forall (fun state => stored_as state ≠ Some c) rows ->
  scan distance s rows S0 md = Ok (S1, md') ->
  md' !! c = md !! c.
Proof.
  induction rows as [|state rows IH]; intros S0 md S1 md' Hall H; simpl in *.
  - by inversion H.
  - apply Forall_cons in Hall as [Hc Hall]. unfold stored_as in Hc.
    destruct (read_state state) as [[c' f]|e]; [|done]. simpl in H.
    destruct (negb (String.eqb c' "")); [|by eapply IH].
    destruct (passes_filters distance s f) as [b|e]; [|done]; simpl in H.
    rewrite (IH _ _ _ _ Hall H). apply lookup_insert_ne. congruence.
Qed.

(** The last record carrying a callsign is the one stored. *)
Lemma scan_last_wins s pre : forall state post c f S0 md S1 md',
  read_state state = Ok (c, f) -> c ≠ "" ->
  Forall (fun state' => stored_as state' ≠ Some c) post ->
  scan distance s (pre ++ state :: post) S0 md = Ok (S1, md') ->
  md' !! c = Some f.
Proof.
  induction pre as [|x pre IH]; intros state post c f S0 md S1 md' Hr Hc Hpost H;
    simpl in H.
  - rewrite Hr in H. simpl in H.
    apply String.eqb_neq in Hc. rewrite Hc in H. simpl in H.
    destruct (passes_filters distance s f) as [b|e]; [|done]; simpl in H.
    rewrite (scan_keeps _ _ _ _ _ _ _ Hpost H). apply lookup_insert_eq.
  - destruct (read_state x) as [[c' f']|e]; [|done]. simpl in H.
    destruct (negb (String.eqb c' "")); [|by eapply IH].
    destruct (passes_filters distance s f') as [b|e]; [|done]; simpl in H.
    by eapply IH.
Qed.

(** The loop completes when no record raises. *)
Lemma scan_total s rows : forall S0 md,
  Forall (row_accepted distance s) rows ->
  exists S1 md', scan distance s rows S0 md = Ok (S1, md').
Proof.
  induction rows as [|state rows IH]; intros S0 md Hall; simpl.
  - eauto.
  - apply Forall_cons in Hall as [(c & f & Hr & Hp) Hall].
    rewrite Hr. simpl.
    destruct (String.eqb c "") eqn:Hc; simpl; [by apply IH|].
    apply String.eqb_neq in Hc. destruct (Hp Hc) as [b ->]. simpl. by apply IH.
Qed.

(** *** One call of [update] *)

(** A call whose loop completes: the world it leaves. *)
Lemma update_run reply w rows cur md :
  well_formed w ->
  polled_rows reply = Ok rows ->
  scan distance (self w) rows ∅ ∅ = Ok (cur, md) ->
  exists w',
    update distance reply w = (Ok md, w') /\
    self w' = with__previously_tracked
                (with__state (self w) (Z.of_nat (size cur)))
                (Some (fresh (dom (sets w)))) /\
    sets w' !! fresh (dom (sets w)) = Some cur /\
    (forall l', l' ∈ dom (sets w) -> sets w' !! l' = sets w !! l') /\
    bus w' = bus w ++ new_events w cur md.
Proof.
  intros Hwf Hrows Hscan. rewrite update_eq, Hrows. cbv zeta.
  set (l := fresh (dom (sets w))).
  assert (Hl : l ∉ dom (sets w)) by apply is_fresh.
  set (w1 := {| self := self w; sets := <[l := ∅]> (sets w); bus := bus w |}).
  pose proof (for_in_scan l rows ∅ w1 ∅) as Hloop.
  simpl in Hloop. rewrite lookup_insert_eq, Hscan in Hloop.
  rewrite (Hloop eq_refl), insert_insert_eq.
  set (w2 := {| self := self w; sets := <[l := cur]> (sets w); bus := bus w |}).
  destruct (detect_and_commit_eq l md w2 cur) as (w' & Hrun & Hself & Hcur & Hold & Hbus).
  - intros p Hp. simpl in *. rewrite dom_insert. apply Hwf in Hp. set_solver.
  - simpl. apply lookup_insert_eq.
  - simpl. intros Hp. apply Hwf in Hp. done.
  - exists w'. rewrite Hrun. split; [done|]. split; [done|]. split; [done|].
    split.
    + intros l' Hl'. rewrite Hold.
      * simpl. apply lookup_insert_ne. congruence.
      * simpl. rewrite dom_insert. set_solver.
    + rewrite Hbus. simpl. f_equal. unfold new_events, previous_set. simpl.
      destruct (_previously_tracked (self w)) as [p|] eqn:Hp; [|done].
      rewrite lookup_total_insert_ne; [done|]. apply Hwf in Hp. congruence.
Qed.

(** A call that completes went through a loop that completed. *)
Lemma update_ok_inv reply w md w' :
  update distance reply w = (Ok md, w') ->
  exists rows cur,
    polled_rows reply = Ok rows /\
    scan distance (self w) rows ∅ ∅ = Ok (cur, md).
Proof.
  rewrite update_eq. cbv zeta. intros H.
  destruct (polled_rows reply) as [rows|e]; [|done].
  set (l := fresh (dom (sets w))) in *.
  pose proof (for_in_scan l rows ∅
    {| self := self w; sets := <[l := ∅]> (sets w); bus := bus w |} ∅) as Hloop.
  simpl in Hloop. rewrite lookup_insert_eq in Hloop. specialize (Hloop eq_refl).
  destruct (scan distance (self w) rows ∅ ∅) as [[cur md']|e] eqn:Hscan.
  - rewrite Hloop in H.
    destruct (detect_and_commit _ _ _) as [[[]|e] w3]; [|done].
    inversion H; subst. by eexists _, _.
  - destruct Hloop as (w2 & Hloop & _). by rewrite Hloop in H.
Qed.

(** A call that raises assigned nothing and fired nothing. *)
Lemma update_raise_inv reply w e w' :
  well_formed w ->
  update distance reply w = (Raise e, w') ->
  self w' = self w /\ bus w' = bus w.
Proof.
  intros Hwf. rewrite update_eq. cbv zeta. intros H.
  destruct (polled_rows reply) as [rows|e']; [|by inversion H].
  set (l := fresh (dom (sets w))) in *.
  pose proof (for_in_scan l rows ∅
    {| self := self w; sets := <[l := ∅]> (sets w); bus := bus w |} ∅) as Hloop.
  simpl in Hloop. rewrite lookup_insert_eq in Hloop. specialize (Hloop eq_refl).
  destruct (scan distance (self w) rows ∅ ∅) as [[cur md']|e'] eqn:Hscan.
  - rewrite Hloop in H. rewrite insert_insert_eq in H.
    set (w2 := {| self := self w; sets := <[l := cur]> (sets w); bus := bus w |}) in *.
    destruct (detect_and_commit_eq l md' w2 cur) as (w3 & Hrun & _).
    + intros p Hp. simpl in *. rewrite dom_insert. apply Hwf in Hp. set_solver.
    + simpl. apply lookup_insert_eq.
    + simpl. intros Hp. apply Hwf in Hp. by apply is_fresh in Hp.
    + by rewrite Hrun in H.
  - destruct Hloop as (w2 & Hloop & Hs & Hb). rewrite Hloop in H.
    by inversion H; subst.
Qed.

End TrackerFacts.

(** ** The claims about the tracker *)

Section TrackerClaims.
Variable distance : Q -> Q -> pyval -> pyval -> result (option Q).

Lemma omap_cons {A B : Type} (f : A -> option B) (x : A) (l : list A) :
  omap f (x :: l) = match f x with Some y => y :: omap f l | None => omap f l end.
Proof. reflexivity. Qed.

(** The set [_previously_tracked] refers to after the two assignments. *)
Lemma previous_set_after w w' l cur :
  self w' = with__previously_tracked (with__state (self w) (Z.of_nat (size cur))) (Some l) ->
  sets w' !! l = Some cur ->
  previous_set w' = Some cur.
Proof.
  intros Hs Hl. unfold previous_set. rewrite Hs. simpl.
  by rewrite (lookup_total_correct _ _ _ Hl).
Qed.

(** C10: after every completed [update], the exposed value
    ([native_value], i.e. [_state]) is the cardinality of the set
    [_previously_tracked] refers to; that set is a new object (its address
    was not allocated before the call) and no object that existed before,
    the old tracked set included, is changed; the centre, the radius, the
    altitude ceiling and the four bounding-box fields are as before. *)
Theorem update_state_invariant reply w md w' :
  well_formed w ->
  update distance reply w = (Ok md, w') ->
  exists l cur,
    _previously_tracked (self w') = Some l /\
    sets w' !! l = Some cur /\
    native_value (self w') = Z.of_nat (size cur) /\
    well_formed w' /\
    (l ∉ dom (sets w)) /\
    (forall l', l' ∈ dom (sets w) -> sets w' !! l' = sets w !! l') /\
    _latitude (self w') = _latitude (self w) /\
    _longitude (self w') = _longitude (self w) /\
    _radius (self w') = _radius (self w) /\
    _altitude (self w') = _altitude (self w) /\
    (_lat_min (self w'), _lon_min (self w'), _lat_max (self w'), _lon_max (self w'))
    = (_lat_min (self w), _lon_min (self w), _lat_max (self w), _lon_max (self w)).
Proof.
  intros Hwf Hrun.
  destruct (update_ok_inv distance _ _ _ _ Hrun) as (rows & cur & Hrows & Hscan).
  destruct (update_run distance _ _ _ _ _ Hwf Hrows Hscan)
    as (w2 & Hrun2 & Hself & Hcur & Hold & _).
  rewrite Hrun in Hrun2. inversion Hrun2; subst w2.
  exists (fresh (dom (sets w))), cur. rewrite Hself. simpl.
  split; [done|]. split; [done|]. split; [done|]. split.
  { intros p Hp. rewrite Hself in Hp. simpl in Hp.
    assert (p = fresh (dom (sets w))) as -> by congruence.
    apply elem_of_dom. eauto. }
  repeat split; try done. apply is_fresh.
Qed.

(** C5: when a previous tracked set exists, a completed [update] fires
    first the ENTRY events and then the EXIT events; the ENTRY callsigns
    are exactly the current set minus the previous one, the EXIT callsigns
    exactly the previous set minus the current one, and no callsign occurs
    twice across the two groups. *)
Theorem boundary_events_entry_then_exit reply w md w' prev :
  well_formed w ->
  previous_set w = Some prev ->
  update distance reply w = (Ok md, w') ->
  exists cur entries exits,
    previous_set w' = Some cur /\
    bus w' = bus w ++ entries ++ exits /\
    Forall (fun e => fst e = EVENT_OPENSKY_ENTRY) entries /\
    Forall (fun e => fst e = EVENT_OPENSKY_EXIT) exits /\
    NoDup (map callsign_of (entries ++ exits)) /\
    (forall c, c ∈ map callsign_of entries <-> c ∈ cur /\ c ∉ prev) /\
    (forall c, c ∈ map callsign_of exits <-> c ∈ prev /\ c ∉ cur).
Proof.
  intros Hwf Hprev Hrun.
  destruct (update_ok_inv distance _ _ _ _ Hrun) as (rows & cur & Hrows & Hscan).
  destruct (update_run distance _ _ _ _ _ Hwf Hrows Hscan)
    as (w2 & Hrun2 & Hself & Hcur & Hold & Hbus).
  rewrite Hrun in Hrun2. inversion Hrun2; subst w2.
  unfold new_events in Hbus. rewrite Hprev in Hbus.
  eexists cur, _, _. split; [by eapply previous_set_after|].
  split; [exact Hbus|].
  assert (Hcs : forall name event (X : gset string),
    map callsign_of (boundary_events name event md X) = elements X).
  { intros. unfold boundary_events. rewrite map_map. simpl.
    unfold callsign_of, boundary_data. simpl.
    induction (elements X) as [|c l IH]; [done|]. simpl. rewrite IH.
    f_equal. by destruct (md !! c). }
  split; [|split].
  - unfold boundary_events. apply Forall_forall. intros e He.
    apply list_elem_of_In, in_map_iff in He as (c & <- & _). done.
  - unfold boundary_events. apply Forall_forall. intros e He.
    apply list_elem_of_In, in_map_iff in He as (c & <- & _). done.
  - rewrite map_app, !Hcs. split; [|split].
    + apply NoDup_app. split; [apply NoDup_elements|]. split; [|apply NoDup_elements].
      intros c. rewrite !elem_of_elements. set_solver.
    + intros c. rewrite elem_of_elements. set_solver.
    + intros c. rewrite elem_of_elements. set_solver.
Qed.

(** C9: a callsign of the previous tracked set that has no entry in this
    cycle's metadata still gets an EXIT event, with altitude 0 and [None]
    for longitude, latitude and icao24. *)
Theorem missing_metadata_exit reply w md w' prev c :
  well_formed w ->
  previous_set w = Some prev ->
  c ∈ prev ->
  update distance reply w = (Ok md, w') ->
  md !! c = None ->
  exists before after,
    bus w' = bus w ++ before ++
      (EVENT_OPENSKY_EXIT,
       {| attr_callsign := c; attr_altitude := VNum 0;
          attr_sensor := _name (self w); attr_longitude := VNone;
          attr_latitude := VNone; attr_icao24 := VNone |}) :: after.
Proof.
  intros Hwf Hprev Hc Hrun Hmd.
  destruct (update_ok_inv distance _ _ _ _ Hrun) as (rows & cur & Hrows & Hscan).
  destruct (update_run distance _ _ _ _ _ Hwf Hrows Hscan)
    as (w2 & Hrun2 & Hself & Hcur & Hold & Hbus).
  rewrite Hrun in Hrun2. inversion Hrun2; subst w2.
  unfold new_events in Hbus. rewrite Hprev in Hbus.
  assert (Hnot : c ∉ cur).
  { intros Hin. pose proof (scan_tracked distance _ _ _ _ _ _ Hscan) as ->.
    pose proof (scan_dom distance _ _ _ _ _ _ Hscan) as Hdom.
    apply elem_of_union in Hin as [Hin|Hin]; [|set_solver].
    apply elem_of_list_to_set, list_elem_of_omap in Hin as (state & Hst & Hq).
    apply qualifies_stored_as in Hq.
    assert (c ∈ dom md) as Hd.
    { rewrite Hdom. apply elem_of_union_l, elem_of_list_to_set, list_elem_of_omap. eauto. }
    apply elem_of_dom in Hd as [? ?]. congruence. }
  assert (Hex : c ∈ elements (prev ∖ cur)) by (apply elem_of_elements; set_solver).
  apply list_elem_of_split in Hex as (l1 & l2 & Hsplit).
  exists (boundary_events (_name (self w)) EVENT_OPENSKY_ENTRY md (cur ∖ prev) ++
          map (fun flight => (EVENT_OPENSKY_EXIT, boundary_data (_name (self w)) md flight)) l1),
         (map (fun flight => (EVENT_OPENSKY_EXIT, boundary_data (_name (self w)) md flight)) l2).
  rewrite Hbus. unfold boundary_events at 2. rewrite Hsplit, map_app. simpl.
  unfold boundary_data at 2. rewrite Hmd. by rewrite <- !app_assoc.
Qed.

(** C7: on the first call ([_previously_tracked] is [None]) a batch of N
    records that all pass the filters, with pairwise distinct callsigns,
    completes, fires no event and sets the count to N. *)
Theorem first_poll_baseline reply w rows :
  _previously_tracked (self w) = None ->
  polled_rows reply = Ok rows ->
  Forall (fun state => is_Some (qualifies distance (self w) state)) rows ->
  NoDup (omap stored_as rows) ->
  exists md w',
    update distance reply w = (Ok md, w') /\
    bus w' = bus w /\
    native_value (self w') = Z.of_nat (length rows).
Proof.
  intros Hprev Hrows Hall Hnd.
  assert (Hwf : well_formed w) by (intros p Hp; congruence).
  assert (Hacc : Forall (row_accepted distance (self w)) rows).
  { eapply Forall_impl; [exact Hall|]. intros state [c Hq]. unfold qualifies in Hq.
    destruct (read_state state) as [[c' f]|e] eqn:Hr; [|done].
    exists c', f. split; [done|]. intros _.
    destruct (negb (String.eqb c' "")); [|done].
    destruct (passes_filters distance (self w) f) as [b|]; [eauto|done]. }
  destruct (scan_total distance (self w) rows ∅ ∅ Hacc) as (cur & md & Hscan).
  destruct (update_run distance _ _ _ _ _ Hwf Hrows Hscan)
    as (w' & Hrun & Hself & Hcur & Hold & Hbus).
  exists md, w'. split; [done|]. split.
  - rewrite Hbus. unfold new_events, previous_set. rewrite Hprev. apply app_nil_r.
  - rewrite Hself. simpl. f_equal.
    pose proof (scan_tracked distance _ _ _ _ _ _ Hscan) as ->.
    assert (Heq : omap (qualifies distance (self w)) rows = omap stored_as rows
                  /\ length (omap stored_as rows) = length rows).
    { clear -Hall. induction Hall as [|state rows [c Hq] _ [IH1 IH2]]; [done|].
      rewrite !omap_cons, Hq, (qualifies_stored_as distance _ _ _ Hq).
      rewrite IH1. simpl. by rewrite IH2. }
    destruct Heq as [Heq Hlen]. rewrite Heq, union_empty_r_L.
    rewrite size_list_to_set by done. done.
Qed.

(** The tracked set a completed call installs. *)
Lemma update_tracked reply w md w' rows :
  well_formed w ->
  update distance reply w = (Ok md, w') ->
  polled_rows reply = Ok rows ->
  exists cur,
    previous_set w' = Some cur /\
    scan distance (self w) rows ∅ ∅ = Ok (cur, md) /\
    forall c, c ∈ cur <->
      exists state, state ∈ rows /\ qualifies distance (self w) state = Some c.
Proof.
  intros Hwf Hrun Hrows.
  destruct (update_ok_inv distance _ _ _ _ Hrun) as (rows' & cur & Hrows' & Hscan).
  assert (rows' = rows) as -> by congruence.
  destruct (update_run distance _ _ _ _ _ Hwf Hrows Hscan)
    as (w2 & Hrun2 & Hself & Hcur & _).
  rewrite Hrun in Hrun2. inversion Hrun2; subst w2.
  exists cur. split; [by eapply previous_set_after|]. split; [done|].
  intros c. rewrite (scan_tracked distance _ _ _ _ _ _ Hscan).
  rewrite union_empty_r_L, elem_of_list_to_set. apply list_elem_of_omap.
Qed.

(** Line 237 on its own. *)
Lemma passes_filters_at_altitude s f a :
  reaches_altitude_test distance s f ->
  py_get f ATTR_ALTITUDE = VNum a ->
  passes_filters distance s f =
  Ok (negb (Qgtb a (_altitude s) && negb (Qeq_bool (_altitude s) 0))).
Proof.
  intros (Hlon & Hlat & Hgnd & d & Hd & Hr) Ha. unfold passes_filters.
  rewrite Hlon, Hlat, Hgnd, Hd. simpl. rewrite Hr, Ha. simpl.
  by destruct (Qgtb a (_altitude s) && negb (Qeq_bool (_altitude s) 0)).
Qed.

(** C8: for a record that gets as far as the altitude test with a numeric
    altitude: with ceiling 0 it is tracked whatever its altitude; with a
    positive ceiling it is tracked when its altitude equals the ceiling, and
    its callsign is not tracked when its altitude exceeds the ceiling (and
    no other record of the batch carries that callsign). *)
Theorem altitude_ceiling_semantics reply w md w' rows state c f a :
  well_formed w ->
  update distance reply w = (Ok md, w') ->
  polled_rows reply = Ok rows ->
  state ∈ rows ->
  read_state state = Ok (c, f) ->
  c ≠ "" ->
  reaches_altitude_test distance (self w) f ->
  py_get f ATTR_ALTITUDE = VNum a ->
  exists cur,
    previous_set w' = Some cur /\
    (_altitude (self w) == 0 -> c ∈ cur)%Q /\
    (0 < _altitude (self w) -> a == _altitude (self w) -> c ∈ cur)%Q /\
    (0 < _altitude (self w) -> _altitude (self w) < a ->
     (forall state', state' ∈ rows -> stored_as state' = Some c -> state' = state) ->
     c ∉ cur)%Q.
Proof.
  intros Hwf Hrun Hrows Hin Hread Hc Hreach Ha.
  destruct (update_tracked _ _ _ _ _ Hwf Hrun Hrows) as (cur & Hprev & _ & Htr).
  pose proof (passes_filters_at_altitude _ _ _ Hreach Ha) as Hp.
  assert (Hq : qualifies distance (self w) state =
               if Qgtb a (_altitude (self w)) && negb (Qeq_bool (_altitude (self w)) 0)
               then None else Some c).
  { unfold qualifies. rewrite Hread, Hp.
    apply String.eqb_neq in Hc. rewrite Hc. simpl.
    by destruct (Qgtb a (_altitude (self w)) && negb (Qeq_bool (_altitude (self w)) 0)). }
  exists cur. split; [done|]. split; [|split].
  - intros H0. apply Htr. exists state. split; [done|]. rewrite Hq.
    apply Qeq_bool_iff in H0. rewrite H0. by rewrite andb_false_r.
  - intros Hpos Heq. apply Htr. exists state. split; [done|]. rewrite Hq.
    assert (Hle : Qle_bool a (_altitude (self w)) = true).
    { apply Qle_bool_iff. rewrite Heq. apply Qle_refl. }
    unfold Qgtb. by rewrite Hle.
  - intros Hpos Hgt Honly Hcur. apply Htr in Hcur as (state' & Hin' & Hq').
    rewrite (Honly state' Hin' (qualifies_stored_as distance _ _ _ Hq')) in Hq'.
    rewrite Hq in Hq'.
    assert (Hle : Qle_bool a (_altitude (self w)) = false).
    { apply not_true_is_false. intros Hle. apply Qle_bool_iff in Hle.
      apply Qle_not_lt in Hle. done. }
    assert (Hz : Qeq_bool (_altitude (self w)) 0 = false).
    { apply not_true_is_false. intros Hz. apply Qeq_bool_iff in Hz.
      rewrite Hz in Hpos. by apply Qlt_irrefl in Hpos. }
    unfold Qgtb in Hq'. rewrite Hle, Hz in Hq'. done.
Qed.

(** C3 (amended): after a completed [update] the new tracked set is
    exactly the set of callsigns for which some record of the batch passes
    all filters; each of them is in the metadata, where the last record
    carrying a callsign is the one stored; and when no callsign occurs in
    two records, the tracked set is exactly the set of stored callsigns
    whose stored record passes the filters. *)
Theorem tracked_set_characterised reply w md w' rows :
  well_formed w ->
  update distance reply w = (Ok md, w') ->
  polled_rows reply = Ok rows ->
  exists cur,
    previous_set w' = Some cur /\
    (forall c, c ∈ cur <->
       exists state, state ∈ rows /\ qualifies distance (self w) state = Some c) /\
    cur ⊆ dom md /\
    (forall pre state post c f,
       rows = pre ++ state :: post ->
       read_state state = Ok (c, f) -> c ≠ "" ->
       Forall (fun state' => stored_as state' ≠ Some c) post ->
       md !! c = Some f) /\
    (NoDup (omap stored_as rows) ->
     tracked_matches_metadata distance (self w) cur md).
Proof.
  intros Hwf Hrun Hrows.
  destruct (update_tracked _ _ _ _ _ Hwf Hrun Hrows) as (cur & Hprev & Hscan & Htr).
  pose proof (scan_dom distance _ _ _ _ _ _ Hscan) as Hdom.
  rewrite dom_empty_L, union_empty_r_L in Hdom.
  assert (Hlast : forall pre state post c f,
    rows = pre ++ state :: post ->
    read_state state = Ok (c, f) -> c ≠ "" ->
    Forall (fun state' => stored_as state' ≠ Some c) post ->
    md !! c = Some f).
  { intros pre state post c f -> Hr Hc Hpost. by eapply scan_last_wins. }
  assert (Honce : forall pre state post c,
    NoDup (omap stored_as (pre ++ state :: post)) ->
    stored_as state = Some c ->
    Forall (fun state' => stored_as state' ≠ Some c) post).
  { intros pre state post c Hnd Hst. rewrite omap_app, omap_cons, Hst in Hnd.
    apply NoDup_app in Hnd as (_ & _ & Hnd). apply NoDup_cons in Hnd as [Hnin _].
    apply Forall_forall. intros state' Hin' Hst'. apply Hnin.
    apply list_elem_of_omap. eauto. }
  exists cur. split; [done|]. split; [done|]. split; [|split; [done|]].
  - intros c Hc. apply Htr in Hc as (state & Hin & Hq).
    rewrite Hdom. apply elem_of_list_to_set, list_elem_of_omap.
    eauto using qualifies_stored_as.
  - intros Hnd c. split.
    + intros Hc. apply Htr in Hc as (state & Hin & Hq).
      pose proof (qualifies_stored_as distance _ _ _ Hq) as Hst.
      apply list_elem_of_split in Hin as (pre & post & ->).
      unfold qualifies in Hq.
      destruct (read_state state) as [[c' f]|e] eqn:Hr; [|done].
      destruct (String.eqb c' "") eqn:Hc'; [done|]. simpl in Hq.
      destruct (passes_filters distance (self w) f) as [[|]|] eqn:Hp; try done.
      inversion Hq; subst c'. exists f. split; [|done].
      apply String.eqb_neq in Hc'. eapply Hlast; eauto.
    + intros (f & Hmd & Hp).
      assert (Hd : c ∈ dom md) by (apply elem_of_dom; eauto).
      rewrite Hdom in Hd.
      apply elem_of_list_to_set, list_elem_of_omap in Hd as (state & Hin & Hst).
      apply Htr. exists state. split; [done|].
      apply list_elem_of_split in Hin as (pre & post & ->).
      unfold stored_as in Hst. unfold qualifies.
      destruct (read_state state) as [[c' f']|e] eqn:Hr; [|done].
      destruct (String.eqb c' "") eqn:Hc'; [done|]. simpl in Hst.
      inversion Hst; subst c'. simpl.
      apply String.eqb_neq in Hc'.
      assert (md !! c = Some f') as Hmd'.
      { eapply Hlast; eauto. eapply Honce; eauto.
        unfold stored_as. rewrite Hr. apply String.eqb_neq in Hc'. by rewrite Hc'. }
      assert (f' = f) as -> by congruence. by rewrite Hp.
Qed.

(** *** Records as dictionaries *)

(** [dict(zip(ks, vs))] with distinct keys: the value under the [i]-th key
    is the [i]-th value, if there is one. *)
Lemma foldl_insert_zip (ks : list string) :
  forall (vs : list pyval) (d : gmap string pyval) i k,
  NoDup ks -> ks !! i = Some k ->
  foldl (fun d kv => <[fst kv := snd kv]> d) d (zip ks vs) !! k =
  match vs !! i with Some v => Some v | None => d !! k end.
Proof.
  induction ks as [|k0 ks IH]; intros vs d i k Hnd Hi; [done|].
  apply NoDup_cons in Hnd as [Hk0 Hnd].
  destruct vs as [|v0 vs]; [by destruct i|].
  simpl. destruct i as [|i]; simpl in *.
  - inversion Hi; subst k0. clear IH Hi.
    assert (Hkeep : forall (ks' : list string) (vs' : list pyval)
                           (d' : gmap string pyval),
      k ∉ ks' ->
      foldl (fun d kv => <[fst kv := snd kv]> d) d' (zip ks' vs') !! k = d' !! k).
    { induction ks' as [|k1 ks' IH']; intros vs' d' Hnin; [done|].
      destruct vs' as [|v1 vs']; [done|]. simpl.
      rewrite IH' by set_solver. apply lookup_insert_ne. set_solver. }
    rewrite Hkeep by done. apply lookup_insert_eq.
  - rewrite (IH vs _ i k Hnd Hi).
    destruct (vs !! i); [done|]. apply lookup_insert_ne.
    intros ->. apply Hk0. by eapply list_elem_of_lookup_2.
Qed.

Lemma result_bind_Ok {A B : Type} (a : A) (f : A -> result B) :
  (Ok a ≫= f) = f a.
Proof. reflexivity. Qed.

Lemma fields_NoDup : NoDup OPENSKY_API_FIELDS.
Proof. by apply (bool_decide_unpack _). Qed.

(** The field named by the [i]-th key is the [i]-th item, or [None]. *)
Lemma flight_field items i k :
  OPENSKY_API_FIELDS !! i = Some k ->
  py_get (py_dict (zip OPENSKY_API_FIELDS items)) k = default VNone (items !! i).
Proof.
  intros Hi. unfold py_get, py_dict.
  rewrite (foldl_insert_zip _ _ _ i k fields_NoDup Hi).
  by destruct (items !! i).
Qed.

(** Reading an array whose second item is a string. *)
Lemma read_state_list items cs :
  items !! 1%nat = Some (VStr cs) ->
  read_state (RVal (VList items)) =
  Ok (strip cs, py_dict (zip OPENSKY_API_FIELDS items)).
Proof.
  intros H1. unfold read_state, iter_row, py_iter.
  rewrite result_bind_Ok. cbv zeta. unfold py_getitem, py_dict.
  rewrite (foldl_insert_zip _ _ _ 1%nat ATTR_CALLSIGN fields_NoDup eq_refl), H1.
  done.
Qed.

(** Without an altitude no record reaches [currently_tracked.add]. *)
Lemma passes_filters_needs_altitude s f :
  py_get f ATTR_ALTITUDE = VNone -> passes_filters distance s f ≠ Ok true.
Proof.
  intros Ha. unfold passes_filters.
  destruct (is_none (py_get f ATTR_LONGITUDE)); [done|].
  destruct (is_none (py_get f ATTR_LATITUDE)); [done|].
  destruct (truthy (py_get f ATTR_ON_GROUND)); [done|].
  destruct (distance _ _ _ _) as [[d|]|e]; simpl; try done.
  destruct (Qgtb d (_radius s)); [done|]. by rewrite Ha.
Qed.

(** Well-typed records do not raise. *)
Lemma well_typed_accepted s state :
  (forall a b x y, exists d, distance a b (VNum x) (VNum y) = Ok d) ->
  well_typed state = true -> row_accepted distance s state.
Proof.
  intros Hdist Hwt. unfold well_typed in Hwt.
  destruct state as [[| | | |items|]|]; try done.
  destruct (items !! 1%nat) as [[| | |cs| |]|] eqn:H1; try done.
  apply andb_prop in Hwt as [Hwt Halt]. apply andb_prop in Hwt as [Hlon Hlat].
  exists (strip cs), (py_dict (zip OPENSKY_API_FIELDS items)).
  split; [by apply read_state_list|]. intros _. unfold passes_filters.
  rewrite (flight_field items 5 ATTR_LONGITUDE eq_refl).
  rewrite (flight_field items 6 ATTR_LATITUDE eq_refl).
  rewrite (flight_field items 7 ATTR_ALTITUDE eq_refl).
  destruct (items !! 5%nat) as [[| |x| | |]|]; try done; simpl; eauto.
  all: destruct (items !! 6%nat) as [[| |y| | |]|]; try done; simpl; eauto.
  destruct (truthy _); [eauto|].
  destruct (Hdist (_latitude s) (_longitude s) y x) as [[d|] ->]; simpl; [|eauto].
  destruct (Qgtb d (_radius s)); [eauto|].
  destruct (items !! 7%nat) as [[|b|a| | |]|]; try done; simpl; eauto.
  - destruct (_ && _); eauto.
  - destruct (_ && _); eauto.
Qed.

(** The filters read four fields of the record and nothing else. *)
Lemma passes_filters_ext s f f' :
  py_get f ATTR_LONGITUDE = py_get f' ATTR_LONGITUDE ->
  py_get f ATTR_LATITUDE = py_get f' ATTR_LATITUDE ->
  py_get f ATTR_ON_GROUND = py_get f' ATTR_ON_GROUND ->
  py_get f ATTR_ALTITUDE = py_get f' ATTR_ALTITUDE ->
  passes_filters distance s f = passes_filters distance s f'.
Proof. intros H1 H2 H3 H4. unfold passes_filters. by rewrite H1, H2, H3, H4. Qed.

(** Appending [None]s to a record changes no field that [get] reads. *)
Lemma padded_field items n i k :
  OPENSKY_API_FIELDS !! i = Some k ->
  py_get (py_dict (zip OPENSKY_API_FIELDS (items ++ replicate n VNone))) k
  = py_get (py_dict (zip OPENSKY_API_FIELDS items)) k.
Proof.
  intros Hi. rewrite !(flight_field _ _ _ Hi).
  destruct (decide (i < length items)%nat) as [Hlt|Hge].
  - by rewrite lookup_app_l.
  - rewrite lookup_app_r by lia. rewrite (lookup_ge_None_2 items) by lia.
    destruct (replicate n VNone !! (i - length items)%nat) as [v|] eqn:Hv; [|done].
    apply lookup_replicate in Hv as [-> _]. done.
Qed.

(** A short record passes or fails like the record padded with [None]s. *)
Lemma qualifies_padded s items cs n :
  items !! 1%nat = Some (VStr cs) ->
  qualifies distance s (RVal (VList (items ++ replicate n VNone)))
  = qualifies distance s (RVal (VList items)).
Proof.
  intros H1. unfold qualifies.
  rewrite (read_state_list items cs H1).
  rewrite (read_state_list (items ++ replicate n VNone) cs)
    by (rewrite lookup_app_l; [done|]; by eapply lookup_lt_Some).
  destruct (negb (String.eqb (strip cs) "")); [|done].
  rewrite (passes_filters_ext s
             (py_dict (zip OPENSKY_API_FIELDS (items ++ replicate n VNone)))
             (py_dict (zip OPENSKY_API_FIELDS items)));
    [done| | | |].
  - apply (padded_field items n 5). reflexivity.
  - apply (padded_field items n 6). reflexivity.
  - apply (padded_field items n 8). reflexivity.
  - apply (padded_field items n 7). reflexivity.
Qed.

(** C4 (amended): a batch of records that are arrays with a string
    callsign, numbers or nothing as coordinates and a number, a boolean or
    nothing as altitude never raises, whatever their lengths (the distance
    function being defined on numbers): fields past the end of a record
    read as [None], a record with fewer than 8 fields adds nothing to the
    tracked set, a record with a non-blank callsign is in the metadata,
    and a record of fewer than 13 fields is filtered exactly like the same
    record padded with [None]s to 13 fields: when it passes, its callsign
    is in the new tracked set. *)
Theorem short_records_tolerated reply w rows :
  (forall a b x y, exists d, distance a b (VNum x) (VNum y) = Ok d) ->
  well_formed w ->
  polled_rows reply = Ok rows ->
  Forall (fun state => well_typed state = true) rows ->
  exists md w',
    update distance reply w = (Ok md, w') /\
    forall items, RVal (VList items) ∈ rows ->
      exists c f,
        read_state (RVal (VList items)) = Ok (c, f) /\
        (forall i k, OPENSKY_API_FIELDS !! i = Some k ->
                     (length items <= i)%nat -> py_get f k = VNone) /\
        ((length items < 8)%nat ->
         qualifies distance (self w) (RVal (VList items)) = None) /\
        (c ≠ "" -> c ∈ dom md) /\
        qualifies distance (self w) (RVal (VList items))
        = qualifies distance (self w)
            (RVal (VList (items ++ replicate (13 - length items) VNone))) /\
        (forall c', qualifies distance (self w) (RVal (VList items)) = Some c' ->
                    exists cur, previous_set w' = Some cur /\ c' ∈ cur).
Proof.
  intros Hdist Hwf Hrows Hall.
  assert (Hacc : Forall (row_accepted distance (self w)) rows).
  { eapply Forall_impl; [exact Hall|]. intros state. by apply well_typed_accepted. }
  destruct (scan_total distance (self w) rows ∅ ∅ Hacc) as (cur & md & Hscan).
  destruct (update_run distance _ _ _ _ _ Hwf Hrows Hscan)
    as (w' & Hrun & Hself & Hcur & _).
  exists md, w'. split; [done|]. intros items Hin.
  pose proof (proj1 (Forall_forall _ _) Hall _ Hin) as Hwt. simpl in Hwt.
  destruct (items !! 1%nat) as [[| | |cs| |]|] eqn:H1; try done.
  pose proof (read_state_list _ _ H1) as Hread.
  eexists _, _. split; [exact Hread|]. split; [|split; [|split; [|split]]].
  - intros i k Hi Hlen. rewrite (flight_field _ _ _ Hi).
    by rewrite lookup_ge_None_2.
  - intros Hlen. unfold qualifies. rewrite Hread.
    destruct (negb (String.eqb (strip cs) "")); [|done].
    pose proof (passes_filters_needs_altitude (self w)
                  (py_dict (zip OPENSKY_API_FIELDS items))) as Hna.
    rewrite (flight_field items 7 ATTR_ALTITUDE eq_refl) in Hna.
    rewrite lookup_ge_None_2 in Hna by lia. specialize (Hna eq_refl).
    by destruct (passes_filters _ _ _) as [[|]|].
  - intros Hc. rewrite (scan_dom distance _ _ _ _ _ _ Hscan).
    apply elem_of_union_l, elem_of_list_to_set, list_elem_of_omap.
    exists (RVal (VList items)). split; [done|]. unfold stored_as. rewrite Hread.
    apply String.eqb_neq in Hc. by rewrite Hc.
  - symmetry. by eapply qualifies_padded.
  - intros c' Hq. exists cur. split; [by eapply previous_set_after|].
    rewrite (scan_tracked distance _ _ _ _ _ _ Hscan).
    apply elem_of_union_l, elem_of_list_to_set, list_elem_of_omap. eauto.
Qed.

(** C1 (amended): when the request itself raises, [update] raises and the
    tracked set, the count and the bus are as before.  When the body is a
    JSON object whose [states] is missing or null, [update] completes as on
    an empty batch: the new tracked set is empty, the count is 0, the
    metadata is empty, and one EXIT event is fired for every callsign
    tracked before (none on a first call). *)
Theorem update_without_states w :
  well_formed w ->
  (exists w1,
     update distance RequestFails w = (Raise ExternalError, w1) /\
     unchanged_by w w1) /\
  (forall ok chunks kvs,
     json_get kvs ATTR_STATES = VNone ->
     exists w',
       update distance (Response ok chunks (Some (VDict kvs))) w = (Ok ∅, w') /\
       previous_set w' = Some ∅ /\
       native_value (self w') = 0%Z /\
       bus w' = bus w ++
         match previous_set w with
         | Some prev => boundary_events (_name (self w)) EVENT_OPENSKY_EXIT ∅ prev
         | None => []
         end).
Proof.
  intros Hwf. split.
  - eexists. split; [by rewrite update_eq|].
    unfold unchanged_by, previous_set. simpl. repeat split.
    destruct (_previously_tracked (self w)) as [p|] eqn:Hp; [|done].
    rewrite lookup_total_insert_ne; [done|].
    intros <-. apply Hwf in Hp. by apply is_fresh in Hp.
  - intros ok chunks kvs Hkvs.
    assert (Hrows : polled_rows (Response ok chunks (Some (VDict kvs))) = Ok []).
    { unfold polled_rows. simpl. by rewrite Hkvs. }
    destruct (update_run distance _ w [] ∅ ∅ Hwf Hrows eq_refl)
      as (w' & Hrun & Hself & Hcur & _ & Hbus).
    exists w'. split; [done|]. split; [by eapply previous_set_after|].
    split; [by rewrite Hself|].
    rewrite Hbus. unfold new_events. destruct (previous_set w) as [prev|]; [|done].
    by rewrite empty_difference_L, difference_empty_L.
Qed.

End TrackerClaims.

(** ** The claims on the sample data *)

(** A run that completes, spelled out. *)
Lemma completes_eq distance reply w :
  completes (update distance reply w) = true ->
  update distance reply w =
  (Ok (metadata_of (update distance reply w)), snd (update distance reply w)).
Proof.
  unfold completes, metadata_of.
  by destruct (update distance reply w) as [[md|e] w'].
Defined.

(** The sample worlds are well formed. *)
Lemma sample_world_well_formed altitude : well_formed (sample_world altitude).
Proof. intros p Hp. discriminate Hp. Defined.

Lemma tracking_AB_well_formed : well_formed tracking_AB.
Proof.
  intros p Hp. vm_compute in Hp. inversion Hp; subst p.
  apply elem_of_dom. vm_compute. eauto.
Defined.

Lemma flat_distance_total a b x y :
  exists d, flat_distance a b (VNum x) (VNum y) = Ok d.
Proof. eexists. reflexivity. Defined.

Lemma update_state_invariant_witness :
  well_formed tracking_AB /\
  exists l cur,
    _previously_tracked (self (snd (update flat_distance second_poll tracking_AB))) = Some l /\
    sets (snd (update flat_distance second_poll tracking_AB)) !! l = Some cur /\
    native_value (self (snd (update flat_distance second_poll tracking_AB))) = Z.of_nat (size cur) /\
    (l ∉ dom (sets tracking_AB)).
Proof.
  split; [exact tracking_AB_well_formed|].
  destruct (update_state_invariant flat_distance second_poll tracking_AB _ _
              tracking_AB_well_formed
              (completes_eq flat_distance second_poll tracking_AB eq_refl))
    as (l & cur & H1 & H2 & H3 & _ & H4 & _).
  exists l, cur. auto.
Defined.

Lemma missing_states_clears_tracking :
  exists w', update flat_distance reply_without_states tracking_AB = (Ok ∅, w')
             /\ ~ unchanged_by tracking_AB w'.
Proof.
  exists (snd (update flat_distance reply_without_states tracking_AB)).
  split; [by vm_compute|].
  intros (_ & H & _). vm_compute in H. discriminate.
Qed.

Lemma update_without_states_witness :
  well_formed tracking_AB /\
  exists w',
    update flat_distance reply_without_states tracking_AB = (Ok ∅, w') /\
    previous_set w' = Some ∅ /\
    native_value (self w') = 0%Z.
Proof.
  split; [exact tracking_AB_well_formed|].
  destruct (update_without_states flat_distance tracking_AB tracking_AB_well_formed)
    as [_ H].
  destruct (H true [] [("time", VNum 1700000000)] eq_refl) as (w' & H1 & H2 & H3 & _).
  exists w'. auto.
Defined.

Lemma boundary_events_entry_then_exit_witness :
  well_formed tracking_AB /\
  previous_set tracking_AB = Some {[ "AAA"; "BBB" ]} /\
  exists cur entries exits,
    previous_set (snd (update flat_distance second_poll tracking_AB)) = Some cur /\
    bus (snd (update flat_distance second_poll tracking_AB)) =
      bus tracking_AB ++ entries ++ exits /\
    NoDup (map callsign_of (entries ++ exits)) /\
    (forall c, c ∈ map callsign_of entries <-> c ∈ cur /\ c ∉ ({[ "AAA"; "BBB" ]} : gset string)).
Proof.
  assert (Hprev : previous_set tracking_AB = Some {[ "AAA"; "BBB" ]}) by (by vm_compute).
  split; [exact tracking_AB_well_formed|]. split; [exact Hprev|].
  destruct (boundary_events_entry_then_exit flat_distance second_poll tracking_AB _ _ _
              tracking_AB_well_formed Hprev
              (completes_eq flat_distance second_poll tracking_AB eq_refl))
    as (cur & entries & exits & H1 & H2 & _ & _ & H3 & H4 & _).
  exists cur, entries, exits. auto.
Defined.

Lemma missing_metadata_exit_witness :
  well_formed tracking_AB /\
  metadata_of (update flat_distance second_poll tracking_AB) !! "AAA" = None /\
  exists before after,
    bus (snd (update flat_distance second_poll tracking_AB)) =
    bus tracking_AB ++ before ++
      (EVENT_OPENSKY_EXIT,
       {| attr_callsign := "AAA"; attr_altitude := VNum 0;
          attr_sensor := "opensky"; attr_longitude := VNone;
          attr_latitude := VNone; attr_icao24 := VNone |}) :: after.
Proof.
  assert (Hprev : previous_set tracking_AB = Some {[ "AAA"; "BBB" ]}) by (by vm_compute).
  assert (Hmd : metadata_of (update flat_distance second_poll tracking_AB) !! "AAA" = None)
    by (by vm_compute).
  split; [exact tracking_AB_well_formed|]. split; [exact Hmd|].
  apply (missing_metadata_exit flat_distance second_poll tracking_AB
           (metadata_of (update flat_distance second_poll tracking_AB))
           (snd (update flat_distance second_poll tracking_AB))
           {[ "AAA"; "BBB" ]} "AAA" tracking_AB_well_formed Hprev);
    [ apply elem_of_union_l; by apply elem_of_singleton
    | exact (completes_eq flat_distance second_poll tracking_AB eq_refl)
    | exact Hmd ].
Defined.

Lemma first_poll_baseline_witness :
  _previously_tracked (self (sample_world 1000)) = None /\
  exists md w',
    update flat_distance first_poll (sample_world 1000) = (Ok md, w') /\
    bus w' = [] /\
    native_value (self w') = 2%Z.
Proof.
  split; [reflexivity|].
  apply (first_poll_baseline flat_distance first_poll (sample_world 1000)
           [ RVal (state_vector "AAA" (VNum 500) false);
             RVal (state_vector "BBB" (VNum 900) false) ]).
  - reflexivity.
  - reflexivity.
  - repeat constructor; vm_compute; eauto.
  - by apply (bool_decide_unpack _).
Defined.

Lemma altitude_ceiling_semantics_witness :
  (0 < _altitude (self (sample_world 1000)))%Q /\
  exists cur,
    previous_set (snd (update flat_distance ceiling_poll (sample_world 1000))) = Some cur /\
    "EDGE" ∈ cur.
Proof.
  split; [reflexivity|].
  destruct (altitude_ceiling_semantics flat_distance ceiling_poll (sample_world 1000)
              (metadata_of (update flat_distance ceiling_poll (sample_world 1000)))
              (snd (update flat_distance ceiling_poll (sample_world 1000)))
              [ RVal (state_vector "LOW" (VNum 500) false);
                RVal (state_vector "EDGE" (VNum 1000) false);
                RVal (state_vector "HIGH" (VNum 1500) false) ]
              (RVal (state_vector "EDGE" (VNum 1000) false))
              "EDGE"
              (py_dict (zip OPENSKY_API_FIELDS (state_fields "EDGE" (VNum 1000) false)))
              1000)
    as (cur & Hprev & _ & Hedge & _).
  - apply sample_world_well_formed.
  - exact (completes_eq flat_distance ceiling_poll (sample_world 1000) eq_refl).
  - reflexivity.
  - apply list_elem_of_further, list_elem_of_here.
  - reflexivity.
  - discriminate.
  - repeat split; try reflexivity. eexists. split; reflexivity.
  - reflexivity.
  - exists cur. split; [exact Hprev|]. apply Hedge; reflexivity.
Defined.

Lemma tracked_set_characterised_witness :
  well_formed tracking_AB /\
  exists cur,
    previous_set (snd (update flat_distance second_poll tracking_AB)) = Some cur /\
    cur ⊆ dom (metadata_of (update flat_distance second_poll tracking_AB)) /\
    tracked_matches_metadata flat_distance (self tracking_AB) cur
      (metadata_of (update flat_distance second_poll tracking_AB)).
Proof.
  split; [exact tracking_AB_well_formed|].
  destruct (tracked_set_characterised flat_distance second_poll tracking_AB
              (metadata_of (update flat_distance second_poll tracking_AB))
              (snd (update flat_distance second_poll tracking_AB))
              [ RVal (state_vector "BBB" (VNum 500) false);
                RVal (state_vector "CCC" (VNum 1000) false) ]
              tracking_AB_well_formed
              (completes_eq flat_distance second_poll tracking_AB eq_refl)
              eq_refl)
    as (cur & H1 & _ & H2 & _ & H3).
  exists cur. split; [exact H1|]. split; [exact H2|].
  apply H3. by apply (bool_decide_unpack _).
Defined.

Lemma repeated_callsign_breaks_metadata_invariant :
  exists md w' cur,
    update flat_distance repeated_callsign_poll (sample_world 1000) = (Ok md, w') /\
    previous_set w' = Some cur /\
    ~ tracked_matches_metadata flat_distance (self (sample_world 1000)) cur md.
Proof.
  exists (metadata_of (update flat_distance repeated_callsign_poll (sample_world 1000))),
         (snd (update flat_distance repeated_callsign_poll (sample_world 1000))),
         {[ "AAA" ]}.
  split; [exact (completes_eq flat_distance repeated_callsign_poll (sample_world 1000) eq_refl)|].
  split; [by vm_compute|].
  intros H. destruct (proj1 (H "AAA")) as (f & Hf & Hp); [by apply elem_of_singleton|].
  assert (Hf0 : metadata_of (update flat_distance repeated_callsign_poll (sample_world 1000))
                  !! "AAA"
                = Some (py_dict (zip OPENSKY_API_FIELDS (state_fields "AAA" (VNum 0) true)))).
  { vm_cast_no_check
      (eq_refl (Some (py_dict (zip OPENSKY_API_FIELDS (state_fields "AAA" (VNum 0) true))))). }
  rewrite Hf0 in Hf. injection Hf as Heq. rewrite <- Heq in Hp.
  assert (Hp0 : passes_filters flat_distance (self (sample_world 1000))
                  (py_dict (zip OPENSKY_API_FIELDS (state_fields "AAA" (VNum 0) true)))
                = Ok false) by (by vm_compute).
  discriminate (eq_trans (eq_sym Hp) Hp0).
Qed.

Lemma short_records_tolerated_witness :
  Forall (fun state => well_typed state = true)
    [ RVal (VList two_fields); RVal (state_vector "CCC" (VNum 500) false) ] /\
  exists md w',
    update flat_distance short_records_poll tracking_AB = (Ok md, w') /\
    qualifies flat_distance (self tracking_AB) (RVal (VList two_fields)) = None /\
    "DDD" ∈ dom md.
Proof.
  assert (Hwt : Forall (fun state => well_typed state = true)
    [ RVal (VList two_fields); RVal (state_vector "CCC" (VNum 500) false) ])
    by (repeat constructor).
  assert (Hrows : polled_rows short_records_poll =
                  Ok [ RVal (VList two_fields); RVal (state_vector "CCC" (VNum 500) false) ])
    by reflexivity.
  split; [exact Hwt|].
  destruct (short_records_tolerated flat_distance short_records_poll tracking_AB
              [ RVal (VList two_fields); RVal (state_vector "CCC" (VNum 500) false) ]
              flat_distance_total tracking_AB_well_formed Hrows Hwt)
    as (md & w' & Hrun & Hrec).
  destruct (Hrec two_fields (list_elem_of_here _ _))
    as (c & f & Hread & _ & Hq & Hmd & _).
  exists md, w'. split; [exact Hrun|]. split; [apply Hq; simpl; lia|].
  rewrite (read_state_list two_fields "DDD " eq_refl) in Hread.
  injection Hread as <- _. apply Hmd. discriminate.
Defined.

Lemma malformed_record_aborts_update :
  fst (update flat_distance truncated_poll tracking_AB) = Raise KeyError /\
  fst (update flat_distance bad_altitude_poll tracking_AB) = Raise TypeError /\
  length nine_fields = 9%nat /\
  previous_set (snd (update flat_distance nine_fields_poll tracking_AB))
  = Some {[ "EEE" ]}.
Proof. repeat split; by vm_compute. Qed.

(** ** The bounding box *)

Section BoundingBox.
Import BBox.
Local Open Scope R_scope.

Lemma PI_bounds : 3 < PI <= 4.
Proof. split; [pose proof PI2_3_2; lra | apply PI_4]. Qed.

Lemma py_mod_once (x m : R) (z : Z) :
  m <> 0 -> IZR z <= x / m < IZR z + 1 -> py_mod x m = x - m * IZR z.
Proof.
  intros Hm [H1 H2]. unfold py_mod.
  rewrite <- (Int_part_spec (x / m) z); [reflexivity | lra].
Qed.

(** Left wrap: the source's expression is the 2 pi translate. *)
Lemma lon_min_wrap (x : R) :
  - (2 * PI) < x < - PI -> PI + py_mod x (- PI) = x + 2 * PI.
Proof.
  intros [H1 H2]. pose proof PI_bounds as [Hp _].
  rewrite (py_mod_once x (- PI) 1); [lra | lra |].
  assert (E : x / - PI = (- x) / PI) by (field; lra). rewrite E.
  split.
  - apply (Rmult_le_reg_r PI); [lra|]. unfold Rdiv. rewrite Rmult_assoc, Rinv_l by lra. lra.
  - apply (Rmult_lt_reg_r PI); [lra|]. unfold Rdiv. rewrite Rmult_assoc, Rinv_l by lra. lra.
Qed.

(** Right wrap: the source's expression mirrors at pi instead. *)
Lemma lon_max_wrap (x : R) :
  PI < x < 2 * PI -> PI - py_mod x PI = 2 * PI - x.
Proof.
  intros [H1 H2]. pose proof PI_bounds as [Hp _].
  rewrite (py_mod_once x PI 1); [lra | lra |].
  split.
  - apply (Rmult_le_reg_r PI); [lra|]. unfold Rdiv. rewrite Rmult_assoc, Rinv_l by lra. lra.
  - apply (Rmult_lt_reg_r PI); [lra|]. unfold Rdiv. rewrite Rmult_assoc, Rinv_l by lra. lra.
Qed.

Lemma degrees_lt (x y : R) : x < y -> degrees x < degrees y.
Proof.
  intros H. unfold degrees. pose proof PI_bounds as [Hp _].
  apply Rmult_lt_compat_r; [apply Rinv_0_lt_compat; lra | lra].
Qed.

Lemma degrees_radians (x : R) : degrees (radians x) = x.
Proof. unfold degrees, radians. pose proof PI_bounds. field. lra. Qed.

(** The box on the equator, when only the right edge crosses the antimeridian. *)
Lemma bbox_equator_right_wrap (lon r : R) :
  0 < r ->
  - PI <= radians lon - r / 1000 / 6371 ->
  PI < radians lon + r / 1000 / 6371 < 2 * PI ->
  r / 1000 / 6371 <= PI / 2 ->
  _get_bbox 0 lon r =
  Ok (degrees (- (r / 1000 / 6371)),
      degrees (radians lon - r / 1000 / 6371),
      degrees (r / 1000 / 6371),
      degrees (2 * PI - (radians lon + r / 1000 / 6371))).
Proof.
  intros Hr Hmin Hmax Hlat. unfold _get_bbox, approx_earth_radius.
  destruct (Rlt_dec 0 (r / 1000)) as [_|Hn]; [|exfalso; apply Hn; lra].
  assert (E0 : radians 0 = 0) by (unfold radians; lra).
  rewrite E0, cos_0.
  destruct (Req_dec_T (6371 * 1) 0) as [Hz|_]; [lra|].
  replace (6371 * 1) with 6371 by lra.
  destruct (Rlt_dec (radians lon - r / 1000 / 6371) (- PI)) as [Hlt|_]; [lra|].
  destruct (Rlt_dec PI (radians lon + r / 1000 / 6371)) as [_|Hn]; [|lra].
  rewrite lon_max_wrap by lra.
  rewrite Rmax_right by lra. rewrite Rmin_right by lra.
  repeat f_equal; lra.
Qed.

(** Latitudes: clamped to the poles, around the centre. *)
Lemma bbox_latitude_bounds (lat lon r : R) lat_min lon_min lat_max lon_max :
  -90 <= lat <= 90 ->
  _get_bbox lat lon r = Ok (lat_min, lon_min, lat_max, lon_max) ->
  -90 <= lat_min /\ lat_min <= lat /\ lat <= lat_max /\ lat_max <= 90.
Proof.
  intros [Hlo Hhi]. unfold _get_bbox, approx_earth_radius.
  destruct (Rlt_dec 0 (r / 1000)) as [Hr|_]; [|done].
  destruct (Req_dec_T _ 0) as [_|_]; [done|].
  intros H. inversion H; subst; clear H.
  pose proof PI_bounds as [Hp _].
  assert (Hd : 0 < r / 1000 / 6371) by (apply Rdiv_lt_0_compat; lra).
  assert (E1 : -90 = degrees (- PI / 2)) by (unfold degrees; field; lra).
  assert (E2 : 90 = degrees (PI / 2)) by (unfold degrees; field; lra).
  assert (Hmono : forall x y, x <= y -> degrees x <= degrees y).
  { intros x y Hxy. unfold degrees.
    apply Rmult_le_compat_r; [left; apply Rinv_0_lt_compat; lra | lra]. }
  assert (E3 : lat = degrees (radians lat)) by (by rewrite degrees_radians).
  repeat split.
  - rewrite E1. apply Hmono, Rmax_l.
  - rewrite E3 at 2. apply Hmono. apply Rmax_lub.
    + unfold radians. nra.
    + lra.
  - rewrite E3 at 1. apply Hmono. apply Rmin_glb.
    + unfold radians. nra.
    + lra.
  - rewrite E2. apply Hmono, Rmin_l.
Qed.

(** C2 (the code at a failing input): for a centre at latitude 0,
    longitude 179.9 and a radius of 100 km, [lonRad + dLon] exceeds pi and
    the right edge comes out as [2 pi - (lonRad + dLon)], the mirror image
    at the antimeridian, not as [lonRad + dLon - 2 pi]; the box does not
    cross the antimeridian and lies west of the centre, which is outside
    it. *)
Theorem bbox_right_edge_mirrored :
  exists lat_min lon_min lat_max lon_max,
    _get_bbox 0 (1799 / 10) 100000 = Ok (lat_min, lon_min, lat_max, lon_max) /\
    lon_max = degrees (2 * PI - (radians (1799 / 10) + 100 / 6371)) /\
    lon_max <> degrees (radians (1799 / 10) + 100 / 6371 - 2 * PI) /\
    lon_min <= lon_max < 1799 / 10 /\
    ~ in_box (lat_min, lon_min, lat_max, lon_max) 0 (1799 / 10).
Proof.
  pose proof PI_bounds as [Hp3 Hp4].
  assert (Hbox := bbox_equator_right_wrap (1799 / 10) 100000).
  replace (100000 / 1000 / 6371) with (100 / 6371) in Hbox by field.
  assert (Hrad : radians (1799 / 10) = PI - PI / 1800) by (unfold radians; field).
  rewrite Hrad in *.
  eexists _, _, _, _. split; [apply Hbox; lra|].
  assert (Hmax : degrees (2 * PI - (PI - PI / 1800 + 100 / 6371)) < 1799 / 10).
  { replace (1799 / 10) with (degrees (PI - PI / 1800))
      by (rewrite <- Hrad; apply degrees_radians).
    apply degrees_lt. lra. }
  assert (Hmin : degrees (PI - PI / 1800 - 100 / 6371)
                 < degrees (2 * PI - (PI - PI / 1800 + 100 / 6371))).
  { apply degrees_lt. lra. }
  split; [reflexivity|]. split; [|split; [lra|]].
  - intros Heq.
    assert (Hlt : degrees (PI - PI / 1800 + 100 / 6371 - 2 * PI)
                  < degrees (2 * PI - (PI - PI / 1800 + 100 / 6371))).
    { apply degrees_lt. lra. }
    lra.
  - intros (_ & Hin & _). lra.
Qed.

(** C6 (the code at a failing input): at latitude 0, longitude 179.9 the
    box for a radius of 100 km does not contain the box for 50 km: the
    west edge of the smaller box lies east of the whole larger box. *)
Theorem doubled_radius_box_disjoint :
  exists small large,
    _get_bbox 0 (1799 / 10) 50000 = Ok small /\
    _get_bbox 0 (1799 / 10) (2 * 50000) = Ok large /\
    in_box small 0 (degrees (radians (1799 / 10) - 50 / 6371)) /\
    ~ in_box large 0 (degrees (radians (1799 / 10) - 50 / 6371)) /\
    ~ box_contains large small.
Proof.
  pose proof PI_bounds as [Hp3 Hp4].
  assert (Hsmall := bbox_equator_right_wrap (1799 / 10) 50000).
  assert (Hlarge := bbox_equator_right_wrap (1799 / 10) (2 * 50000)).
  replace (50000 / 1000 / 6371) with (50 / 6371) in Hsmall by field.
  replace (2 * 50000 / 1000 / 6371) with (100 / 6371) in Hlarge by field.
  assert (Hrad : radians (1799 / 10) = PI - PI / 1800) by (unfold radians; field).
  rewrite Hrad in *.
  assert (Hpos : degrees (- (50 / 6371)) <= 0 <= degrees (50 / 6371)).
  { replace 0 with (degrees 0) by (unfold degrees; field; lra).
    split; left; apply degrees_lt; lra. }
  assert (H1 : degrees (PI - PI / 1800 - 50 / 6371)
               < degrees (2 * PI - (PI - PI / 1800 + 50 / 6371)))
    by (apply degrees_lt; lra).
  assert (H2 : degrees (2 * PI - (PI - PI / 1800 + 100 / 6371))
               < degrees (PI - PI / 1800 - 50 / 6371))
    by (apply degrees_lt; lra).
  assert (H3 : degrees (PI - PI / 1800 - 100 / 6371)
               < degrees (2 * PI - (PI - PI / 1800 + 100 / 6371)))
    by (apply degrees_lt; lra).
  assert (Hin : in_box (degrees (- (50 / 6371)), degrees (PI - PI / 1800 - 50 / 6371),
                        degrees (50 / 6371),
                        degrees (2 * PI - (PI - PI / 1800 + 50 / 6371)))
                  0 (degrees (PI - PI / 1800 - 50 / 6371))).
  { unfold in_box. split; [exact Hpos|]. split; intros; lra. }
  assert (Hout : ~ in_box (degrees (- (100 / 6371)), degrees (PI - PI / 1800 - 100 / 6371),
                           degrees (100 / 6371),
                           degrees (2 * PI - (PI - PI / 1800 + 100 / 6371)))
                     0 (degrees (PI - PI / 1800 - 50 / 6371))).
  { intros (_ & Hin' & _). lra. }
  eexists _, _. split; [apply Hsmall; lra|]. split; [apply Hlarge; lra|].
  split; [exact Hin|]. split; [exact Hout|].
  intros Hc. apply Hout, Hc, Hin.
Qed.

End BoundingBox.

(** * Further properties *)

(** ** The tracker *)

Section TrackerMore.
Variable distance : Q -> Q -> pyval -> pyval -> result (option Q).

(** The loop touches one set object and nothing else. *)
Lemma for_in_frame l rows : forall md w r w',
  for_in rows (process_state distance l) md w = (r, w') ->
  self w' = self w /\ bus w' = bus w /\
  (forall l', l' ≠ l -> sets w' !! l' = sets w !! l').
Proof.
  induction rows as [|state rows IH]; intros md w r w' H; simpl in H.
  - by inversion H.
  - rewrite M_bind_eq, process_state_eq in H.
    destruct (read_state state) as [[c f]|e]; [|by inversion H].
    destruct (negb (String.eqb c "")); [|by eapply IH].
    destruct (passes_filters distance (self w) f) as [[|]|e];
      [| by eapply IH | by inversion H].
    apply IH in H as (Hs & Hb & Hf). simpl in *.
    split; [done|]. split; [done|].
    intros l' Hl'. rewrite Hf by done. by apply lookup_insert_ne.
Qed.

(** The filters read the centre, the radius and the ceiling only. *)
Lemma passes_filters_config s s' f :
  same_configuration s s' ->
  passes_filters distance s' f = passes_filters distance s f.
Proof.
  intros (H1 & H2 & H3 & H4 & _). unfold passes_filters.
  by rewrite H1, H2, H3, H4.
Qed.

Lemma scan_config s s' rows : forall S0 md,
  same_configuration s s' ->
  scan distance s' rows S0 md = scan distance s rows S0 md.
Proof.
  induction rows as [|state rows IH]; intros S0 md Hc; simpl; [done|].
  destruct (read_state state) as [[c f]|e]; [|done]. simpl.
  destruct (negb (String.eqb c "")); [|by apply IH].
  rewrite (passes_filters_config _ _ _ Hc).
  destruct (passes_filters distance s f) as [b|e]; [|done]. simpl. by apply IH.
Qed.

Lemma same_configuration_after s n l :
  same_configuration s (with__previously_tracked (with__state s n) (Some l)).
Proof. by repeat split. Qed.

(** What a completed call leaves, in one place. *)
Lemma update_completed reply w md w' :
  well_formed w ->
  update distance reply w = (Ok md, w') ->
  exists rows cur,
    polled_rows reply = Ok rows /\
    scan distance (self w) rows ∅ ∅ = Ok (cur, md) /\
    self w' = with__previously_tracked
                (with__state (self w) (Z.of_nat (size cur)))
                (Some (fresh (dom (sets w)))) /\
    sets w' !! fresh (dom (sets w)) = Some cur /\
    (forall l', l' ∈ dom (sets w) -> sets w' !! l' = sets w !! l') /\
    bus w' = bus w ++ new_events w cur md /\
    previous_set w' = Some cur /\
    well_formed w'.
Proof.
  intros Hwf Hrun.
  destruct (update_ok_inv distance _ _ _ _ Hrun) as (rows & cur & Hrows & Hscan).
  destruct (update_run distance _ _ _ _ _ Hwf Hrows Hscan)
    as (w2 & Hrun2 & Hself & Hcur & Hold & Hbus).
  rewrite Hrun in Hrun2. inversion Hrun2; subst w2.
  exists rows, cur. repeat (split; [done|]). split.
  - unfold previous_set. rewrite Hself. simpl.
    by rewrite (lookup_total_correct _ _ _ Hcur).
  - intros p Hp. rewrite Hself in Hp. simpl in Hp.
    assert (p = fresh (dom (sets w))) as -> by congruence.
    apply elem_of_dom. eauto.
Qed.

(** What a call that raises leaves. *)
Lemma update_raised reply w e w' :
  well_formed w ->
  update distance reply w = (Raise e, w') ->
  self w' = self w /\ bus w' = bus w /\
  (forall l', l' ∈ dom (sets w) -> sets w' !! l' = sets w !! l').
Proof.
  intros Hwf. rewrite update_eq. cbv zeta.
  set (l := fresh (dom (sets w))).
  assert (Hl : l ∉ dom (sets w)) by apply is_fresh.
  set (w1 := {| self := self w; sets := <[l := ∅]> (sets w); bus := bus w |}).
  assert (Hw1 : forall l', l' ∈ dom (sets w) -> sets w1 !! l' = sets w !! l').
  { intros l' Hl'. simpl. apply lookup_insert_ne. congruence. }
  intros H. destruct (polled_rows reply) as [rows|e']; [|by inversion H; subst].
  destruct (for_in rows (process_state distance l) ∅ w1) as [[md|e'] w2] eqn:Hloop.
  - exfalso.
    pose proof (for_in_scan distance l rows ∅ w1 ∅) as Hs.
    simpl in Hs. rewrite lookup_insert_eq in Hs. specialize (Hs eq_refl).
    destruct (scan distance (self w) rows ∅ ∅) as [[cur md']|e'] eqn:Hscan.
    + fold w1 in Hs. rewrite Hs in Hloop. inversion Hloop; subst w2 md'.
      rewrite insert_insert_eq in H.
      destruct (detect_and_commit_eq l md
        {| self := self w; sets := <[l := cur]> (sets w); bus := bus w |} cur)
        as (w3 & Hrun & _).
      * intros p Hp. simpl in *. rewrite dom_insert. apply Hwf in Hp. set_solver.
      * simpl. apply lookup_insert_eq.
      * simpl. intros Hp. apply Hwf in Hp. done.
      * by rewrite Hrun in H.
    + destruct Hs as (w2' & Hs & _). fold w1 in Hs. congruence.
  - inversion H; subst w2 e'.
    apply for_in_frame in Hloop as (Hs & Hb & Hf).
    split; [done|]. split; [done|].
    intros l' Hl'. rewrite Hf by congruence. by apply Hw1.
Qed.


(** X1: a call that raises leaves the tracked set, the count, every
    attribute of the sensor, the bus and every existing set object as they
    were; the world stays well formed. *)
Theorem failed_update_changes_nothing reply w e w' :
  well_formed w ->
  update distance reply w = (Raise e, w') ->
  self w' = self w /\
  unchanged_by w w' /\
  (forall l', l' ∈ dom (sets w) -> sets w' !! l' = sets w !! l') /\
  well_formed w'.
Proof.
  intros Hwf Hrun.
  destruct (update_raised _ _ _ _ Hwf Hrun) as (Hs & Hb & Hf).
  split; [done|]. split; [|split; [done|]].
  - unfold unchanged_by, previous_set. rewrite Hs.
    split; [|done].
    destruct (_previously_tracked (self w)) as [p|] eqn:Hp; [|done].
    f_equal. rewrite !lookup_total_alt. by rewrite (Hf p (Hwf p Hp)).
  - intros p Hp. rewrite Hs in Hp. pose proof (Hwf p Hp) as Hd.
    apply elem_of_dom. rewrite (Hf p Hd). by apply elem_of_dom.
Qed.

(** X2: polling again with the same reply fires nothing and keeps the
    count and the tracked set. *)
Theorem repeated_poll_is_quiet reply w md w' :
  well_formed w ->
  update distance reply w = (Ok md, w') ->
  exists w'',
    update distance reply w' = (Ok md, w'') /\
    bus w'' = bus w' /\
    _state (self w'') = _state (self w') /\
    previous_set w'' = previous_set w'.
Proof.
  intros Hwf Hrun.
  destruct (update_completed _ _ _ _ Hwf Hrun)
    as (rows & cur & Hrows & Hscan & Hself & _ & _ & _ & Hprev & Hwf').
  assert (Hscan' : scan distance (self w') rows ∅ ∅ = Ok (cur, md)).
  { rewrite Hself, (scan_config (self w)); [done|]. apply same_configuration_after. }
  destruct (update_run distance _ _ _ _ _ Hwf' Hrows Hscan')
    as (w'' & Hrun' & Hself' & Hcur' & _ & Hbus').
  exists w''. split; [done|]. split; [|split].
  - rewrite Hbus'. unfold new_events. rewrite Hprev.
    rewrite difference_diag_L. unfold boundary_events.
    rewrite elements_empty. simpl. by rewrite app_nil_r.
  - rewrite Hself', Hself. done.
  - rewrite Hprev. unfold previous_set. rewrite Hself'. simpl.
    by rewrite (lookup_total_correct _ _ _ Hcur').
Qed.

Lemma boundary_events_callsigns name event md (X : gset string) :
  map callsign_of (boundary_events name event md X) = elements X.
Proof.
  unfold boundary_events. rewrite map_map.
  induction (elements X) as [|c l IH]; [done|]. simpl. rewrite IH.
  f_equal. unfold callsign_of, boundary_data. simpl. by destruct (md !! c).
Qed.

Lemma boundary_events_length name event md (X : gset string) :
  length (boundary_events name event md X) = size X.
Proof. unfold boundary_events. by rewrite length_map. Qed.

(** X3: the events of a call are enough to follow the tracked set: the new
    set is the previous one without the EXIT callsigns and with the ENTRY
    callsigns, and the count moves by the number of entries minus the
    number of exits. *)
Theorem events_replay_tracked_set reply w md w' prev :
  well_formed w ->
  previous_set w = Some prev ->
  update distance reply w = (Ok md, w') ->
  exists cur entries exits,
    previous_set w' = Some cur /\
    bus w' = bus w ++ entries ++ exits /\
    Forall (fun e => fst e = EVENT_OPENSKY_ENTRY) entries /\
    Forall (fun e => fst e = EVENT_OPENSKY_EXIT) exits /\
    cur = (prev ∖ list_to_set (map callsign_of exits))
          ∪ list_to_set (map callsign_of entries) /\
    (_state (self w') + Z.of_nat (length exits)
     = Z.of_nat (size prev) + Z.of_nat (length entries))%Z.
Proof.
  intros Hwf Hprev Hrun.
  destruct (update_completed _ _ _ _ Hwf Hrun)
    as (rows & cur & _ & _ & Hself & _ & _ & Hbus & Hprev' & _).
  unfold new_events in Hbus. rewrite Hprev in Hbus.
  eexists cur, _, _. split; [done|]. split; [exact Hbus|].
  split; [|split; [|split]].
  - unfold boundary_events. apply Forall_forall. intros e He.
    apply list_elem_of_In, in_map_iff in He as (c & <- & _). done.
  - unfold boundary_events. apply Forall_forall. intros e He.
    apply list_elem_of_In, in_map_iff in He as (c & <- & _). done.
  - rewrite !boundary_events_callsigns, !list_to_set_elements_L.
    apply set_eq. intros x. rewrite elem_of_union, !elem_of_difference.
    destruct (decide (x ∈ prev)); tauto.
  - rewrite !boundary_events_length, Hself. simpl.
    pose proof (size_union_alt prev cur) as H1.
    pose proof (size_union_alt cur prev) as H2.
    rewrite (union_comm_L cur prev) in H2. lia.
Qed.

(** X4: every event carries the sensor name; when the callsign is in this
    cycle's metadata the event carries the altitude, longitude, latitude
    and icao24 of the stored record; and an ENTRY event always has such a
    record. *)
Theorem event_payloads reply w md w' prev :
  well_formed w ->
  previous_set w = Some prev ->
  update distance reply w = (Ok md, w') ->
  exists fired,
    bus w' = bus w ++ fired /\
    forall e, e ∈ fired ->
      attr_sensor (snd e) = _name (self w) /\
      (forall m, md !! callsign_of e = Some m ->
         attr_altitude (snd e) = py_get m ATTR_ALTITUDE /\
         attr_longitude (snd e) = py_get m ATTR_LONGITUDE /\
         attr_latitude (snd e) = py_get m ATTR_LATITUDE /\
         attr_icao24 (snd e) = py_get m ATTR_ICAO24) /\
      (fst e = EVENT_OPENSKY_ENTRY -> is_Some (md !! callsign_of e)).
Proof.
  intros Hwf Hprev Hrun.
  destruct (update_completed _ _ _ _ Hwf Hrun)
    as (rows & cur & _ & Hscan & _ & _ & _ & Hbus & _ & _).
  unfold new_events in Hbus. rewrite Hprev in Hbus.
  eexists. split; [exact Hbus|]. intros e He.
  assert (Hdata : exists event c,
    e = (event, boundary_data (_name (self w)) md c) /\
    (event = EVENT_OPENSKY_ENTRY -> c ∈ cur)).
  { apply elem_of_app in He as [He|He]; unfold boundary_events in He;
      apply list_elem_of_In, in_map_iff in He as (c & <- & Hc);
      apply list_elem_of_In, elem_of_elements in Hc; eexists _, c;
      (split; [reflexivity|]).
    - intros _. set_solver.
    - intros Heq. discriminate Heq. }
  destruct Hdata as (event & c & -> & Hentry).
  assert (Hc : callsign_of (event, boundary_data (_name (self w)) md c) = c).
  { unfold callsign_of, boundary_data. simpl. by destruct (md !! c). }
  rewrite Hc. simpl. split; [|split].
  - unfold boundary_data. by destruct (md !! c).
  - intros m Hm. unfold boundary_data. by rewrite Hm.
  - intros Hev. apply Hentry in Hev.
    apply elem_of_dom. rewrite (scan_dom distance _ _ _ _ _ _ Hscan).
    rewrite (scan_tracked distance _ _ _ _ _ _ Hscan) in Hev.
    apply elem_of_union in Hev as [Hev|Hev]; [|set_solver].
    apply elem_of_list_to_set, list_elem_of_omap in Hev as (state & Hin & Hq).
    apply elem_of_union_l, elem_of_list_to_set, list_elem_of_omap.
    eauto using qualifies_stored_as.
Qed.


(** Records with a blank callsign pass through the loop without trace. *)
Lemma for_in_skips_blank l rows : forall md w,
  for_in (filter (fun state => is_blank state = false) rows)
         (process_state distance l) md w
  = for_in rows (process_state distance l) md w.
Proof.
  induction rows as [|state rows IH]; intros md w; [done|].
  rewrite filter_cons. destruct (decide (is_blank state = false)) as [Hb|Hb].
  - simpl. rewrite !M_bind_eq.
    destruct (process_state distance l md state w) as [[md'|e] w1]; [|done].
    apply IH.
  - rewrite IH. simpl. rewrite M_bind_eq, process_state_eq.
    unfold is_blank in Hb.
    destruct (read_state state) as [[c f]|e]; [|done].
    destruct (String.eqb c ""); [done|]. by destruct Hb.
Qed.

(** X5: records whose callsign strips to the empty string count for
    nothing, whatever their other fields: dropping them from the batch
    changes neither the outcome of [update] nor the world it leaves. *)
Theorem blank_callsigns_are_discarded reply reply' w rows :
  polled_rows reply = Ok rows ->
  polled_rows reply' = Ok (filter (fun state => is_blank state = false) rows) ->
  update distance reply' w = update distance reply w.
Proof.
  intros Hrows Hrows'. rewrite !update_eq, Hrows, Hrows'. cbv zeta.
  by rewrite for_in_skips_blank.
Qed.

(** X6: the keys of the metadata are exactly the non-blank stripped
    callsigns of the batch; the empty string is never a key and never
    tracked, and every tracked callsign is a key. *)
Theorem metadata_keys reply w md w' rows :
  well_formed w ->
  update distance reply w = (Ok md, w') ->
  polled_rows reply = Ok rows ->
  exists cur,
    previous_set w' = Some cur /\
    (forall c, c ∈ dom md <->
       c ≠ "" /\ exists state f, state ∈ rows /\ read_state state = Ok (c, f)) /\
    cur ⊆ dom md /\
    "" ∉ cur.
Proof.
  intros Hwf Hrun Hrows.
  destruct (update_completed _ _ _ _ Hwf Hrun)
    as (rows' & cur & Hrows' & Hscan & _ & _ & _ & _ & Hprev & _).
  assert (rows' = rows) as -> by congruence.
  pose proof (scan_dom distance _ _ _ _ _ _ Hscan) as Hdom.
  rewrite dom_empty_L, union_empty_r_L in Hdom.
  pose proof (scan_tracked distance _ _ _ _ _ _ Hscan) as Hcur.
  rewrite union_empty_r_L in Hcur.
  assert (Hkeys : forall c, c ∈ dom md <->
     c ≠ "" /\ exists state f, state ∈ rows /\ read_state state = Ok (c, f)).
  { intros c. rewrite Hdom, elem_of_list_to_set, list_elem_of_omap. split.
    - intros (state & Hin & Hst). unfold stored_as in Hst.
      destruct (read_state state) as [[c' f]|e] eqn:Hr; [|done].
      destruct (String.eqb c' "") eqn:Hc; [done|]. simpl in Hst.
      inversion Hst; subst c'. apply String.eqb_neq in Hc. eauto.
    - intros (Hc & state & f & Hin & Hr). exists state. split; [done|].
      unfold stored_as. rewrite Hr. apply String.eqb_neq in Hc. by rewrite Hc. }
  assert (Hsub : cur ⊆ dom md).
  { intros c Hc. rewrite Hcur in Hc.
    apply elem_of_list_to_set, list_elem_of_omap in Hc as (state & Hin & Hq).
    rewrite Hdom. apply elem_of_list_to_set, list_elem_of_omap.
    eauto using qualifies_stored_as. }
  exists cur. split; [done|]. split; [done|]. split; [done|].
  intros Hin. apply Hsub, Hkeys in Hin as [Hne _]. done.
Qed.

(** [dict(zip(ks, vs))] has no key outside [ks]. *)
Lemma foldl_insert_zip_other (ks : list string) :
  forall (vs : list pyval) (d : gmap string pyval) k,
  k ∉ ks ->
  foldl (fun d kv => <[fst kv := snd kv]> d) d (zip ks vs) !! k = d !! k.
Proof.
  induction ks as [|k0 ks IH]; intros vs d k Hk; [done|].
  destruct vs as [|v0 vs]; [done|]. simpl.
  rewrite IH by set_solver. apply lookup_insert_ne. set_solver.
Qed.

(** X7: a record is read by position: the field named by the [i]-th key
    is the [i]-th item, [None] past the end of a short record, and items
    after the thirteenth are ignored. *)
Theorem record_decoding items cs :
  items !! 1%nat = Some (VStr cs) ->
  exists f,
    read_state (RVal (VList items)) = Ok (strip cs, f) /\
    (forall i k, OPENSKY_API_FIELDS !! i = Some k ->
                 py_get f k = default VNone (items !! i)) /\
    (forall k, k ∉ OPENSKY_API_FIELDS -> f !! k = None) /\
    read_state (RVal (VList (take 13 items))) = Ok (strip cs, f).
Proof.
  intros H1. exists (py_dict (zip OPENSKY_API_FIELDS items)).
  split; [by apply read_state_list|]. split; [|split].
  - intros i k Hi. by apply flight_field.
  - intros k Hk. unfold py_dict. by rewrite foldl_insert_zip_other.
  - rewrite (read_state_list (take 13 items) cs).
    + do 3 f_equal. change 13%nat with (length OPENSKY_API_FIELDS).
      apply zip_with_take_r.
    + rewrite lookup_take_lt by lia. done.
Qed.


(** What a record went through when it reached [currently_tracked.add]. *)
Lemma passes_filters_true_inv s f :
  passes_filters distance s f = Ok true ->
  py_get f ATTR_LONGITUDE ≠ VNone /\
  py_get f ATTR_LATITUDE ≠ VNone /\
  truthy (py_get f ATTR_ON_GROUND) = false /\
  (exists d, distance (_latitude s) (_longitude s)
               (py_get f ATTR_LATITUDE) (py_get f ATTR_LONGITUDE) = Ok (Some d)
             /\ (d <= _radius s)%Q) /\
  py_get f ATTR_ALTITUDE ≠ VNone /\
  (exists above, py_gt (py_get f ATTR_ALTITUDE) (_altitude s) = Ok above /\
                 (above = false \/ (_altitude s == 0)%Q)).
Proof.
  unfold passes_filters.
  destruct (is_none (py_get f ATTR_LONGITUDE)) eqn:Hlon; [done|].
  destruct (is_none (py_get f ATTR_LATITUDE)) eqn:Hlat; [done|].
  destruct (truthy (py_get f ATTR_ON_GROUND)); [done|].
  destruct (distance _ _ _ _) as [[d|]|e]; simpl; try done.
  destruct (Qgtb d (_radius s)) eqn:Hd; [done|].
  destruct (is_none (py_get f ATTR_ALTITUDE)) eqn:Halt; [done|].
  destruct (py_gt (py_get f ATTR_ALTITUDE) (_altitude s)) as [above|e]; simpl; [|done].
  destruct (above && negb (Qeq_bool (_altitude s) 0)) eqn:Hab; [done|].
  intros _.
  assert (Hnone : forall v, is_none v = false -> v ≠ VNone) by (by intros [] ? ?).
  split; [by apply Hnone|]. split; [by apply Hnone|]. split; [done|].
  split; [|split; [by apply Hnone|]].
  - exists d. split; [done|]. apply Qle_bool_iff. unfold Qgtb in Hd.
    by destruct (Qle_bool d (_radius s)).
  - exists above. split; [done|]. destruct above; [right|by left].
    apply Qeq_bool_iff. simpl in Hab. by destruct (Qeq_bool (_altitude s) 0).
Qed.

(** X8: every tracked callsign comes from a record of the batch that has
    both coordinates, is not on the ground, lies within the radius, has an
    altitude and, unless the ceiling is 0, an altitude not above it. *)
Theorem tracked_callsign_conditions reply w md w' rows :
  well_formed w ->
  update distance reply w = (Ok md, w') ->
  polled_rows reply = Ok rows ->
  exists cur,
    previous_set w' = Some cur /\
    forall c, c ∈ cur ->
      exists state f,
        state ∈ rows /\ read_state state = Ok (c, f) /\
        py_get f ATTR_LONGITUDE ≠ VNone /\
        py_get f ATTR_LATITUDE ≠ VNone /\
        truthy (py_get f ATTR_ON_GROUND) = false /\
        (exists d, distance (_latitude (self w)) (_longitude (self w))
                     (py_get f ATTR_LATITUDE) (py_get f ATTR_LONGITUDE)
                   = Ok (Some d) /\ (d <= _radius (self w))%Q) /\
        py_get f ATTR_ALTITUDE ≠ VNone /\
        (exists above,
           py_gt (py_get f ATTR_ALTITUDE) (_altitude (self w)) = Ok above /\
           (above = false \/ (_altitude (self w) == 0)%Q)).
Proof.
  intros Hwf Hrun Hrows.
  destruct (update_completed _ _ _ _ Hwf Hrun)
    as (rows' & cur & Hrows' & Hscan & _ & _ & _ & _ & Hprev & _).
  assert (rows' = rows) as -> by congruence.
  exists cur. split; [done|]. intros c Hc.
  rewrite (scan_tracked distance _ _ _ _ _ _ Hscan), union_empty_r_L in Hc.
  apply elem_of_list_to_set, list_elem_of_omap in Hc as (state & Hin & Hq).
  unfold qualifies in Hq.
  destruct (read_state state) as [[c' f]|e] eqn:Hr; [|done].
  destruct (negb (String.eqb c' "")); [|done].
  destruct (passes_filters distance (self w) f) as [[|]|] eqn:Hp; try done.
  inversion Hq; subst c'. exists state, f. split; [done|]. split; [done|].
  by apply passes_filters_true_inv.
Qed.

Lemma size_list_to_set_le (l : list string) :
  size (list_to_set l : gset string) <= length l.
Proof.
  induction l as [|x l IH]; [by rewrite list_to_set_nil, size_empty|].
  rewrite list_to_set_cons, size_union_alt, size_singleton. simpl.
  pose proof (subseteq_size (list_to_set l ∖ {[x]}) (list_to_set l : gset string)
                ltac:(set_solver)). lia.
Qed.

Lemma length_omap_le {A B : Type} (f : A -> option B) (l : list A) :
  length (omap f l) <= length l.
Proof.
  induction l as [|x l IH]; [done|]. rewrite omap_cons.
  destruct (f x); simpl; lia.
Qed.

(** X9: the count is never negative and never exceeds the number of
    records polled, and neither does the number of metadata entries. *)
Theorem count_bounds reply w md w' rows :
  well_formed w ->
  update distance reply w = (Ok md, w') ->
  polled_rows reply = Ok rows ->
  (0 <= native_value (self w') <= Z.of_nat (length rows))%Z /\
  size (dom md) <= length rows.
Proof.
  intros Hwf Hrun Hrows.
  destruct (update_completed _ _ _ _ Hwf Hrun)
    as (rows' & cur & Hrows' & Hscan & Hself & _).
  assert (rows' = rows) as -> by congruence.
  rewrite Hself. unfold native_value. simpl.
  rewrite (scan_tracked distance _ _ _ _ _ _ Hscan), union_empty_r_L.
  rewrite (scan_dom distance _ _ _ _ _ _ Hscan), dom_empty_L, union_empty_r_L.
  pose proof (size_list_to_set_le (omap (qualifies distance (self w)) rows)).
  pose proof (length_omap_le (qualifies distance (self w)) rows).
  pose proof (size_list_to_set_le (omap stored_as rows)).
  pose proof (length_omap_le stored_as rows).
  lia.
Qed.

Lemma same_configuration_refl s : same_configuration s s.
Proof. by repeat split. Qed.

Lemma same_configuration_trans s1 s2 s3 :
  same_configuration s1 s2 -> same_configuration s2 s3 -> same_configuration s1 s3.
Proof.
  unfold same_configuration. intros H1 H2.
  destruct H1 as (?&?&?&?&?&?&?&?&?&?&?), H2 as (?&?&?&?&?&?&?&?&?&?&?).
  repeat split; congruence.
Qed.

(** One call, whatever its outcome. *)
Lemma update_keeps_invariant reply w :
  well_formed w -> count_matches w ->
  well_formed (snd (update distance reply w)) /\
  count_matches (snd (update distance reply w)) /\
  same_configuration (self w) (self (snd (update distance reply w))) /\
  bus w `prefix_of` bus (snd (update distance reply w)).
Proof.
  intros Hwf Hcount.
  destruct (update distance reply w) as [[md|e] w'] eqn:Hrun; simpl.
  - destruct (update_completed _ _ _ _ Hwf Hrun)
      as (rows & cur & _ & _ & Hself & Hcur & _ & Hbus & _ & Hwf').
    split; [done|]. split; [|split].
    + intros p Hp. rewrite Hself in *. simpl in *.
      assert (p = fresh (dom (sets w))) as -> by congruence.
      by rewrite (lookup_total_correct _ _ _ Hcur).
    + rewrite Hself. apply same_configuration_after.
    + rewrite Hbus. by apply prefix_app_r.
  - destruct (update_raised _ _ _ _ Hwf Hrun) as (Hs & Hb & Hf).
    split; [|split; [|split]].
    + intros p Hp. rewrite Hs in Hp. pose proof (Hwf p Hp) as Hd.
      apply elem_of_dom. rewrite (Hf p Hd). by apply elem_of_dom.
    + intros p Hp. rewrite Hs in *. rewrite (Hcount p Hp).
      rewrite !lookup_total_alt. by rewrite (Hf p (Hwf p Hp)).
    + rewrite Hs. apply same_configuration_refl.
    + by rewrite Hb.
Qed.

(** X10: over any sequence of polls, failing ones included, the count
    stays the size of the tracked set, the tracked set stays a live
    object, the configuration and the bounding box are never touched, and
    events are only ever appended to the bus. *)
Theorem polls_keep_invariant replies : forall w,
  well_formed w -> count_matches w ->
  well_formed (polls distance replies w) /\
  count_matches (polls distance replies w) /\
  same_configuration (self w) (self (polls distance replies w)) /\
  bus w `prefix_of` bus (polls distance replies w).
Proof.
  induction replies as [|reply replies IH]; intros w Hwf Hcount; simpl.
  - split; [done|]. split; [done|]. split; [apply same_configuration_refl|done].
  - destruct (update_keeps_invariant reply w Hwf Hcount) as (Hwf' & Hc' & Hs' & Hb').
    destruct (IH _ Hwf' Hc') as (Hwf'' & Hc'' & Hs'' & Hb'').
    split; [done|]. split; [done|]. split.
    + by eapply same_configuration_trans.
    + by etrans.
Qed.

End TrackerMore.

(** ** The bounding box *)

Section BoundingBoxMore.
Import BBox.
Local Open Scope R_scope.

Lemma degrees_le (x y : R) : x <= y -> degrees x <= degrees y.
Proof.
  intros H. unfold degrees. pose proof PI_bounds as [Hp _].
  apply Rmult_le_compat_r; [left; apply Rinv_0_lt_compat; lra | lra].
Qed.

Lemma degrees_lt_inv (x y : R) : degrees x < degrees y -> x < y.
Proof.
  intros H. destruct (Rlt_le_dec x y) as [|Hle]; [done|].
  apply degrees_le in Hle. lra.
Qed.

Lemma degrees_plus (x y : R) : degrees (x + y) = degrees x + degrees y.
Proof. unfold degrees. pose proof PI_bounds. field. lra. Qed.

Lemma degrees_minus (x y : R) : degrees (x - y) = degrees x - degrees y.
Proof. unfold degrees. pose proof PI_bounds. field. lra. Qed.

(** Strictly between the poles the parallel has a positive radius. *)
Lemma cos_radians_pos (lat : R) : -90 < lat < 90 -> 0 < cos (radians lat).
Proof.
  intros [Hlo Hhi]. pose proof PI_bounds as [Hp _].
  apply cos_gt_0; unfold radians; nra.
Qed.

Lemma half_width_pos (lat r : R) :
  -90 < lat < 90 -> 0 < r -> 0 < half_width lat r.
Proof.
  intros Hlat Hr. unfold half_width, approx_earth_radius.
  pose proof (cos_radians_pos lat Hlat).
  apply Rdiv_lt_0_compat; [lra | nra].
Qed.

Lemma half_width_mono (lat r r' : R) :
  -90 < lat < 90 -> r <= r' -> half_width lat r <= half_width lat r'.
Proof.
  intros Hlat Hr. unfold half_width, approx_earth_radius.
  pose proof (cos_radians_pos lat Hlat).
  apply Rmult_le_compat_r; [left; apply Rinv_0_lt_compat; nra | lra].
Qed.

(** The box as computed, by cases on the two wrap tests. *)
Lemma bbox_eq (lat lon r : R) :
  -90 < lat < 90 -> 0 < r ->
  _get_bbox lat lon r =
  Ok (degrees (Rmax (- PI / 2) (radians lat - half_height r)),
      degrees (if Rlt_dec (radians lon - half_width lat r) (- PI)
               then PI + py_mod (radians lon - half_width lat r) (- PI)
               else radians lon - half_width lat r),
      degrees (Rmin (PI / 2) (radians lat + half_height r)),
      degrees (if Rlt_dec PI (radians lon + half_width lat r)
               then PI - py_mod (radians lon + half_width lat r) PI
               else radians lon + half_width lat r)).
Proof.
  intros Hlat Hr. unfold _get_bbox, half_height, half_width.
  pose proof (cos_radians_pos lat Hlat) as Hcos.
  destruct (Rlt_dec 0 (r / 1000)) as [_|Hn]; [|exfalso; apply Hn; lra].
  destruct (Req_dec_T (approx_earth_radius * cos (radians lat)) 0) as [Hz|_];
    [unfold approx_earth_radius in Hz; nra|].
  reflexivity.
Qed.

(** X11: whenever a box is returned for a centre between the poles, its
    latitudes lie in [-90, 90], are ordered and enclose the centre. *)
Theorem latitudes_enclose_centre (lat lon r : R) lat_min lon_min lat_max lon_max :
  -90 <= lat <= 90 ->
  _get_bbox lat lon r = Ok (lat_min, lon_min, lat_max, lon_max) ->
  -90 <= lat_min <= lat /\ lat <= lat_max <= 90 /\ lat_min <= lat_max.
Proof.
  intros Hlat Hbox.
  destruct (bbox_latitude_bounds _ _ _ _ _ _ _ Hlat Hbox) as (H1 & H2 & H3 & H4).
  lra.
Qed.

(** X12: when neither edge crosses the antimeridian, the box reaches the
    same angle east and west of the centre and contains it. *)
Theorem box_contains_centre_without_wrap (lat lon r : R) :
  -90 < lat < 90 -> 0 < r ->
  - PI <= radians lon - half_width lat r ->
  radians lon + half_width lat r <= PI ->
  exists lat_min lon_min lat_max lon_max,
    _get_bbox lat lon r = Ok (lat_min, lon_min, lat_max, lon_max) /\
    lon_min = lon - degrees (half_width lat r) /\
    lon_max = lon + degrees (half_width lat r) /\
    lon_min < lon < lon_max /\
    in_box (lat_min, lon_min, lat_max, lon_max) lat lon.
Proof.
  intros Hlat Hr Hmin Hmax.
  pose proof (half_width_pos lat r Hlat Hr) as Hw.
  pose proof (degrees_lt 0 _ Hw) as Hdw.
  replace (degrees 0) with 0 in Hdw by (unfold degrees; lra).
  eexists _, _, _, _. split; [by apply bbox_eq|].
  destruct (Rlt_dec _ (- PI)) as [?|_]; [lra|].
  destruct (Rlt_dec PI _) as [?|_]; [lra|].
  rewrite degrees_minus, degrees_plus, degrees_radians.
  split; [done|]. split; [done|]. split; [lra|].
  pose proof (bbox_latitude_bounds lat lon r _ _ _ _ ltac:(lra)
                (bbox_eq lat lon r Hlat Hr)) as (_ & H1 & H2 & _).
  unfold in_box. split; [done|]. split; intros; lra.
Qed.

(** X13: when only the west edge crosses the antimeridian, it is moved by
    a full turn: the box then runs across the antimeridian and still
    contains the centre. *)
Theorem west_edge_wraps_by_full_turn (lat lon r : R) :
  -90 < lat < 90 -> -180 <= lon <= 180 -> 0 < r ->
  half_width lat r < PI ->
  radians lon - half_width lat r < - PI ->
  radians lon + half_width lat r <= PI ->
  exists lat_min lon_min lat_max lon_max,
    _get_bbox lat lon r = Ok (lat_min, lon_min, lat_max, lon_max) /\
    lon_min = lon - degrees (half_width lat r) + 360 /\
    lon_max = lon + degrees (half_width lat r) /\
    lon_max < lon_min <= 180 /\
    in_box (lat_min, lon_min, lat_max, lon_max) lat lon.
Proof.
  intros Hlat Hlon Hr Hpi Hmin Hmax.
  pose proof PI_bounds as [Hp3 Hp4].
  assert (Hrl : - PI <= radians lon) by (unfold radians; nra).
  pose proof (half_width_pos lat r Hlat Hr) as Hw.
  pose proof (degrees_lt 0 _ Hw) as Hdw.
  replace (degrees 0) with 0 in Hdw by (unfold degrees; lra).
  pose proof (degrees_lt _ _ Hpi) as Hdpi.
  replace (degrees PI) with 180 in Hdpi by (unfold degrees; field; lra).
  pose proof (degrees_lt _ _ Hmin) as Hdmin.
  rewrite degrees_minus, degrees_radians in Hdmin.
  replace (degrees (- PI)) with (-180) in Hdmin by (unfold degrees; field; lra).
  eexists _, _, _, _. split; [by apply bbox_eq|].
  destruct (Rlt_dec _ (- PI)) as [_|?]; [|lra].
  destruct (Rlt_dec PI _) as [?|_]; [lra|].
  rewrite lon_min_wrap by lra.
  rewrite !degrees_plus, degrees_minus, degrees_radians.
  replace (degrees (2 * PI)) with 360 by (unfold degrees; field; lra).
  split; [done|]. split; [done|]. split; [lra|].
  pose proof (bbox_latitude_bounds lat lon r _ _ _ _ ltac:(lra)
                (bbox_eq lat lon r Hlat Hr)) as (_ & H1 & H2 & _).
  unfold in_box. split; [done|]. split; intros; lra.
Qed.

(** X14: as long as the larger box does not cross the antimeridian,
    enlarging the radius never shrinks the box. *)
Theorem larger_radius_larger_box (lat lon r r' : R) :
  -90 < lat < 90 -> 0 < r <= r' ->
  - PI <= radians lon - half_width lat r' ->
  radians lon + half_width lat r' <= PI ->
  exists small large,
    _get_bbox lat lon r = Ok small /\
    _get_bbox lat lon r' = Ok large /\
    box_contains large small.
Proof.
  intros Hlat [Hr Hrr'] Hmin Hmax.
  pose proof (half_width_mono lat r r' Hlat Hrr') as Hw.
  pose proof (half_width_pos lat r Hlat Hr) as Hwpos.
  assert (Hh : half_height r <= half_height r').
  { unfold half_height, approx_earth_radius. lra. }
  eexists _, _. split; [by apply bbox_eq|]. split; [apply bbox_eq; [done|lra]|].
  repeat (destruct (Rlt_dec _ _) as [?|?]; [lra|]).
  intros lat0 lon0. unfold in_box.
  pose proof (degrees_le _ _ (Rplus_le_compat_l (radians lon) _ _ Hw)) as E1.
  assert (E2 : degrees (radians lon - half_width lat r')
               <= degrees (radians lon - half_width lat r))
    by (apply degrees_le; lra).
  assert (E3 : degrees (radians lon - half_width lat r)
               <= degrees (radians lon + half_width lat r))
    by (apply degrees_le; lra).
  assert (E4 : degrees (Rmax (- PI / 2) (radians lat - half_height r'))
               <= degrees (Rmax (- PI / 2) (radians lat - half_height r))).
  { apply degrees_le, Rmax_lub; [apply Rmax_l|].
    eapply Rle_trans; [|apply Rmax_r]. lra. }
  assert (E5 : degrees (Rmin (PI / 2) (radians lat + half_height r))
               <= degrees (Rmin (PI / 2) (radians lat + half_height r'))).
  { apply degrees_le, Rmin_glb; [apply Rmin_l|].
    eapply Rle_trans; [apply Rmin_r|]. lra. }
  intros (Hlat0 & Hlon0 & _). specialize (Hlon0 E3).
  split; [lra|]. split; intros; lra.
Qed.

(** A radius that is not positive fails the assertion, and only such a
    radius does. *)
Lemma nonpositive_radius_refused (lat lon r : R) :
  _get_bbox lat lon r = Raise AssertionError <-> r <= 0.
Proof.
  unfold _get_bbox.
  destruct (Rlt_dec 0 (r / 1000)) as [Hr|Hr].
  - split; [|lra]. by destruct (Req_dec_T _ 0).
  - split; [lra|done].
Qed.

End BoundingBoxMore.

(** ** Setting up *)

Lemma Q2R_km_to_m (radius : Q) : Q2R (km_to_m radius) = (Q2R radius * 1000)%R.
Proof.
  unfold km_to_m. rewrite Q2R_mult. f_equal. unfold Q2R. simpl. lra.
Qed.

Lemma Q2R_degrees_range (lat : Q) :
  (-90 < lat)%Q -> (lat < 90)%Q -> (-90 < Q2R lat < 90)%R.
Proof.
  intros Hlo Hhi. apply Qlt_Rlt in Hlo, Hhi.
  replace (Q2R (-90)) with (-90)%R in Hlo by (unfold Q2R; simpl; lra).
  replace (Q2R 90) with 90%R in Hhi by (unfold Q2R; simpl; lra).
  lra.
Qed.

(** X15: with a radius that is not positive nothing is set up:
    [setup_platform] raises [AssertionError], whatever the rest of the
    configuration. *)
Theorem setup_refuses_nonpositive_radius hass config :
  (CONF_RADIUS config <= 0)%Q ->
  setup_platform hass config = Raise AssertionError.
Proof.
  intros Hr. unfold setup_platform, __init__.
  apply Qle_Rle in Hr. rewrite RMicromega.Q2R_0 in Hr.
  set (lat := Q2R (default (hass_latitude hass) (CONF_LATITUDE config))).
  set (lon := Q2R (default (hass_longitude hass) (CONF_LONGITUDE config))).
  assert (Hbox : BBox._get_bbox lat lon (Q2R (km_to_m (CONF_RADIUS config)))
                 = Raise AssertionError).
  { apply nonpositive_radius_refused. rewrite Q2R_km_to_m. lra. }
  by rewrite Hbox.
Qed.

(** X16: with a positive radius and a latitude strictly between the poles
    exactly one entity is handed over, with an update requested before it
    is added.  Its name defaults to the domain and its coordinates to the
    host's; its radius is the configured one in metres; it starts with
    count 0 and no tracked set, and its box fields are what [_get_bbox]
    returns for its centre and radius. *)
Theorem setup_adds_one_entity hass config :
  (0 < CONF_RADIUS config)%Q ->
  (-90 < default (hass_latitude hass) (CONF_LATITUDE config))%Q ->
  (default (hass_latitude hass) (CONF_LATITUDE config) < 90)%Q ->
  exists s,
    setup_platform hass config = Ok ([s], true) /\
    Entity.name s = default DOMAIN (CONF_NAME config) /\
    _latitude s = default (hass_latitude hass) (CONF_LATITUDE config) /\
    _longitude s = default (hass_longitude hass) (CONF_LONGITUDE config) /\
    _radius s = (CONF_RADIUS config * 1000)%Q /\
    _altitude s = CONF_ALTITUDE config /\
    native_value s = 0%Z /\
    _previously_tracked s = None /\
    BBox._get_bbox (Q2R (_latitude s)) (Q2R (_longitude s)) (Q2R (_radius s))
    = Ok (_lat_min s, _lon_min s, _lat_max s, _lon_max s) /\
    well_formed (initial_world s) /\ count_matches (initial_world s).
Proof.
  intros Hr Hlo Hhi. unfold setup_platform, __init__.
  pose proof (Q2R_degrees_range _ Hlo Hhi) as Hlat.
  apply Qlt_Rlt in Hr. rewrite RMicromega.Q2R_0 in Hr.
  set (lat := default (hass_latitude hass) (CONF_LATITUDE config)) in *.
  set (lon := default (hass_longitude hass) (CONF_LONGITUDE config)) in *.
  assert (Hrm : (0 < Q2R (km_to_m (CONF_RADIUS config)))%R)
    by (rewrite Q2R_km_to_m; lra).
  pose proof (bbox_eq (Q2R lat) (Q2R lon) _ Hlat Hrm) as Hbox.
  rewrite Hbox. eexists. split; [reflexivity|]. simpl.
  repeat (split; [done|]).
  split; intros p Hp; discriminate Hp.
Qed.

Section FirstPoll.
Variable distance : Q -> Q -> pyval -> pyval -> result (option Q).

(** X17: while no tracked set exists, a poll fires no event, whatever the
    reply and whether it completes or raises. *)
Theorem first_poll_fires_nothing reply w :
  _previously_tracked (self w) = None ->
  bus (snd (update distance reply w)) = bus w.
Proof.
  intros Hprev.
  assert (Hwf : well_formed w) by (intros p Hp; congruence).
  destruct (update distance reply w) as [[md|e] w'] eqn:Hrun; simpl.
  - destruct (update_completed distance _ _ _ _ Hwf Hrun)
      as (rows & cur & _ & _ & _ & _ & _ & Hbus & _).
    rewrite Hbus. unfold new_events, previous_set. rewrite Hprev. apply app_nil_r.
  - by destruct (update_raised distance _ _ _ _ Hwf Hrun) as (_ & Hb & _).
Qed.
End FirstPoll.

(** ** Further properties on the sample data *)

(** A run that raises, spelled out. *)
Lemma raised_eq distance reply w e :
  raised (update distance reply w) = Some e ->
  update distance reply w = (Raise e, snd (update distance reply w)).
Proof.
  unfold raised. destruct (update distance reply w) as [[md|e'] w']; simpl; [done|].
  intros H. by inversion H.
Defined.

Lemma tracking_AB_previous : previous_set tracking_AB = Some {[ "AAA"; "BBB" ]}.
Proof. by vm_compute. Defined.

Lemma second_poll_rows :
  polled_rows second_poll =
  Ok [ RVal (state_vector "BBB" (VNum 500) false);
       RVal (state_vector "CCC" (VNum 1000) false) ].
Proof. reflexivity. Defined.

Lemma failed_update_changes_nothing_witness :
  well_formed tracking_AB /\
  raised (update flat_distance truncated_poll tracking_AB) = Some KeyError /\
  unchanged_by tracking_AB (snd (update flat_distance truncated_poll tracking_AB)).
Proof.
  assert (Hr : raised (update flat_distance truncated_poll tracking_AB) = Some KeyError)
    by (by vm_compute).
  split; [exact tracking_AB_well_formed|]. split; [exact Hr|].
  exact (proj1 (proj2 (failed_update_changes_nothing flat_distance truncated_poll
           tracking_AB KeyError _ tracking_AB_well_formed
           (raised_eq flat_distance truncated_poll tracking_AB KeyError Hr)))).
Defined.

Lemma repeated_poll_is_quiet_witness :
  well_formed tracking_AB /\
  exists w'',
    update flat_distance second_poll
      (snd (update flat_distance second_poll tracking_AB))
    = (Ok (metadata_of (update flat_distance second_poll tracking_AB)), w'') /\
    bus w'' = bus (snd (update flat_distance second_poll tracking_AB)).
Proof.
  split; [exact tracking_AB_well_formed|].
  destruct (repeated_poll_is_quiet flat_distance second_poll tracking_AB _ _
              tracking_AB_well_formed
              (completes_eq flat_distance second_poll tracking_AB eq_refl))
    as (w'' & H1 & H2 & _).
  exists w''. auto.
Defined.

Lemma events_replay_tracked_set_witness :
  well_formed tracking_AB /\
  previous_set tracking_AB = Some {[ "AAA"; "BBB" ]} /\
  exists cur entries exits,
    previous_set (snd (update flat_distance second_poll tracking_AB)) = Some cur /\
    cur = (({[ "AAA"; "BBB" ]} : gset string) ∖ list_to_set (map callsign_of exits))
          ∪ list_to_set (map callsign_of entries) /\
    (_state (self (snd (update flat_distance second_poll tracking_AB)))
       + Z.of_nat (length exits)
     = Z.of_nat (size ({[ "AAA"; "BBB" ]} : gset string))
       + Z.of_nat (length entries))%Z.
Proof.
  split; [exact tracking_AB_well_formed|]. split; [exact tracking_AB_previous|].
  destruct (events_replay_tracked_set flat_distance second_poll tracking_AB _ _ _
              tracking_AB_well_formed tracking_AB_previous
              (completes_eq flat_distance second_poll tracking_AB eq_refl))
    as (cur & entries & exits & H1 & _ & _ & _ & H2 & H3).
  exists cur, entries, exits. auto.
Defined.

Lemma event_payloads_witness :
  well_formed tracking_AB /\
  previous_set tracking_AB = Some {[ "AAA"; "BBB" ]} /\
  exists fired,
    bus (snd (update flat_distance second_poll tracking_AB))
    = bus tracking_AB ++ fired /\
    forall e, e ∈ fired -> attr_sensor (snd e) = "opensky".
Proof.
  split; [exact tracking_AB_well_formed|]. split; [exact tracking_AB_previous|].
  destruct (event_payloads flat_distance second_poll tracking_AB _ _ _
              tracking_AB_well_formed tracking_AB_previous
              (completes_eq flat_distance second_poll tracking_AB eq_refl))
    as (fired & H1 & H2).
  exists fired. split; [exact H1|]. intros e He. exact (proj1 (H2 e He)).
Defined.

Lemma blank_callsigns_are_discarded_witness :
  update flat_distance second_poll tracking_AB
  = update flat_distance blank_callsign_poll tracking_AB.
Proof.
  apply (blank_callsigns_are_discarded flat_distance blank_callsign_poll second_poll
           tracking_AB
           [ RVal (state_vector "   " (VNum 500) false);
             RVal (state_vector "BBB" (VNum 500) false);
             RVal (state_vector "" (VNum 500) false);
             RVal (state_vector "CCC" (VNum 1000) false) ]).
  - reflexivity.
  - by vm_compute.
Defined.

Lemma metadata_keys_witness :
  well_formed tracking_AB /\
  exists cur,
    previous_set (snd (update flat_distance second_poll tracking_AB)) = Some cur /\
    cur ⊆ dom (metadata_of (update flat_distance second_poll tracking_AB)) /\
    "" ∉ cur.
Proof.
  split; [exact tracking_AB_well_formed|].
  destruct (metadata_keys flat_distance second_poll tracking_AB _ _ _
              tracking_AB_well_formed
              (completes_eq flat_distance second_poll tracking_AB eq_refl)
              second_poll_rows)
    as (cur & H1 & _ & H2 & H3).
  exists cur. auto.
Defined.

Lemma record_decoding_witness :
  long_record !! 1%nat = Some (VStr "CCC") /\
  exists f,
    read_state (RVal (VList long_record)) = Ok ("CCC", f) /\
    read_state (RVal (VList (take 13 long_record))) = Ok ("CCC", f).
Proof.
  split; [reflexivity|].
  destruct (record_decoding long_record "CCC" eq_refl) as (f & H1 & _ & _ & H2).
  exists f. auto.
Defined.

Lemma tracked_callsign_conditions_witness :
  well_formed tracking_AB /\
  exists cur,
    previous_set (snd (update flat_distance second_poll tracking_AB)) = Some cur /\
    forall c, c ∈ cur ->
      exists state f,
        state ∈ [ RVal (state_vector "BBB" (VNum 500) false);
                  RVal (state_vector "CCC" (VNum 1000) false) ] /\
        read_state state = Ok (c, f) /\
        truthy (py_get f ATTR_ON_GROUND) = false.
Proof.
  split; [exact tracking_AB_well_formed|].
  destruct (tracked_callsign_conditions flat_distance second_poll tracking_AB _ _ _
              tracking_AB_well_formed
              (completes_eq flat_distance second_poll tracking_AB eq_refl)
              second_poll_rows)
    as (cur & H1 & H2).
  exists cur. split; [exact H1|]. intros c Hc.
  destruct (H2 c Hc) as (state & f & Hin & Hr & _ & _ & Hg & _).
  exists state, f. auto.
Defined.

Lemma count_bounds_witness :
  well_formed tracking_AB /\
  (0 <= native_value (self (snd (update flat_distance second_poll tracking_AB))) <= 2)%Z.
Proof.
  split; [exact tracking_AB_well_formed|].
  exact (proj1 (count_bounds flat_distance second_poll tracking_AB _ _ _
           tracking_AB_well_formed
           (completes_eq flat_distance second_poll tracking_AB eq_refl)
           second_poll_rows)).
Defined.

Lemma polls_keep_invariant_witness :
  well_formed (sample_world 1000) /\ count_matches (sample_world 1000) /\
  count_matches
    (polls flat_distance [first_poll; truncated_poll; second_poll] (sample_world 1000)) /\
  same_configuration (self (sample_world 1000))
    (self (polls flat_distance [first_poll; truncated_poll; second_poll]
             (sample_world 1000))).
Proof.
  assert (Hc : count_matches (sample_world 1000)) by (intros p Hp; discriminate Hp).
  split; [apply sample_world_well_formed|]. split; [exact Hc|].
  destruct (polls_keep_invariant flat_distance
              [first_poll; truncated_poll; second_poll] (sample_world 1000)
              (sample_world_well_formed 1000) Hc) as (_ & H1 & H2 & _).
  auto.
Defined.

Lemma first_poll_fires_nothing_witness :
  _previously_tracked (self (sample_world 1000)) = None /\
  bus (snd (update flat_distance first_poll (sample_world 1000))) = [].
Proof.
  split; [reflexivity|].
  exact (first_poll_fires_nothing flat_distance first_poll (sample_world 1000) eq_refl).
Defined.

Lemma setup_refuses_nonpositive_radius_witness :
  setup_platform sample_hass
    {| CONF_RADIUS := 0; CONF_NAME := Some "home";
       CONF_USERNAME := "user"; CONF_PASSWORD := "secret";
       CONF_LATITUDE := Some 47%Q; CONF_LONGITUDE := Some 8%Q;
       CONF_ALTITUDE := 0 |}
  = Raise AssertionError.
Proof.
  apply setup_refuses_nonpositive_radius. simpl. apply Qle_refl.
Defined.

Lemma setup_adds_one_entity_witness :
  exists s,
    setup_platform sample_hass sample_config = Ok ([s], true) /\
    Entity.name s = "opensky" /\
    _latitude s = 47%Q /\
    _radius s = (50 * 1000)%Q /\
    _previously_tracked s = None.
Proof.
  destruct (setup_adds_one_entity sample_hass sample_config)
    as (s & H1 & H2 & H3 & _ & H4 & _ & _ & H5 & _); [reflexivity..|].
  exists s. auto.
Defined.

Section BoundingBoxExamples.
Import BBox.
Local Open Scope R_scope.

(** On the equator the parallel is a great circle. *)
Lemma half_width_equator (r : R) : half_width 0 r = r / 1000 / 6371.
Proof.
  unfold half_width, approx_earth_radius.
  replace (radians 0) with 0 by (unfold radians; lra).
  rewrite cos_0. f_equal. lra.
Defined.

Lemma radians_8 : radians 8 = 2 * PI / 45.
Proof. unfold radians. lra. Defined.

Lemma radians_west : radians (- (1799 / 10)) = - PI + PI / 1800.
Proof. unfold radians. lra. Defined.

Lemma latitudes_enclose_centre_witness :
  -90 <= 0 <= 90 /\
  exists lat_min lon_min lat_max lon_max,
    _get_bbox 0 8 50000 = Ok (lat_min, lon_min, lat_max, lon_max) /\
    -90 <= lat_min <= 0 /\ 0 <= lat_max <= 90 /\ lat_min <= lat_max.
Proof.
  assert (Hlat : -90 <= 0 <= 90) by lra.
  split; [exact Hlat|].
  pose proof (bbox_eq 0 8 50000 ltac:(lra) ltac:(lra)) as Hbox.
  eexists _, _, _, _. split; [exact Hbox|].
  exact (latitudes_enclose_centre _ _ _ _ _ _ _ Hlat Hbox).
Defined.

Lemma box_contains_centre_without_wrap_witness :
  - PI <= radians 8 - half_width 0 50000 /\
  radians 8 + half_width 0 50000 <= PI /\
  exists lat_min lon_min lat_max lon_max,
    _get_bbox 0 8 50000 = Ok (lat_min, lon_min, lat_max, lon_max) /\
    lon_min < 8 < lon_max /\
    in_box (lat_min, lon_min, lat_max, lon_max) 0 8.
Proof.
  pose proof PI_bounds as [Hp3 Hp4].
  assert (H1 : - PI <= radians 8 - half_width 0 50000)
    by (rewrite half_width_equator, radians_8; lra).
  assert (H2 : radians 8 + half_width 0 50000 <= PI)
    by (rewrite half_width_equator, radians_8; lra).
  split; [exact H1|]. split; [exact H2|].
  destruct (box_contains_centre_without_wrap 0 8 50000 ltac:(lra) ltac:(lra) H1 H2)
    as (a & b & c & d & Hbox & _ & _ & Hlon & Hin).
  exists a, b, c, d. auto.
Defined.

Lemma west_edge_wraps_by_full_turn_witness :
  radians (- (1799 / 10)) - half_width 0 50000 < - PI /\
  exists lat_min lon_min lat_max lon_max,
    _get_bbox 0 (- (1799 / 10)) 50000 = Ok (lat_min, lon_min, lat_max, lon_max) /\
    lon_max < lon_min <= 180 /\
    in_box (lat_min, lon_min, lat_max, lon_max) 0 (- (1799 / 10)).
Proof.
  pose proof PI_bounds as [Hp3 Hp4].
  assert (H0 : half_width 0 50000 < PI) by (rewrite half_width_equator; lra).
  assert (H1 : radians (- (1799 / 10)) - half_width 0 50000 < - PI)
    by (rewrite half_width_equator, radians_west; lra).
  assert (H2 : radians (- (1799 / 10)) + half_width 0 50000 <= PI)
    by (rewrite half_width_equator, radians_west; lra).
  split; [exact H1|].
  destruct (west_edge_wraps_by_full_turn 0 (- (1799 / 10)) 50000
              ltac:(lra) ltac:(lra) ltac:(lra) H0 H1 H2)
    as (a & b & c & d & Hbox & _ & _ & Hlon & Hin).
  exists a, b, c, d. auto.
Defined.

Lemma larger_radius_larger_box_witness :
  0 < 50000 <= 100000 /\
  exists small large,
    _get_bbox 0 8 50000 = Ok small /\
    _get_bbox 0 8 100000 = Ok large /\
    box_contains large small.
Proof.
  pose proof PI_bounds as [Hp3 Hp4].
  assert (Hr : 0 < 50000 <= 100000) by lra.
  split; [exact Hr|].
  apply (larger_radius_larger_box 0 8 50000 100000); [lra | exact Hr | |];
    rewrite half_width_equator, radians_8; lra.
Defined.

End BoundingBoxExamples.
